(** * The node-local caching file store of Toil: a shallow embedding

    Source: [src/toil/fileStores/cachingFileStore.py], class
    [CachingFileStore].

    The store keeps its state in four SQLite tables ([files], [refs], [jobs],
    [properties]) shared by the workers of a node, next to the files of the
    cache directory on disk.  The embedding keeps the tables as lists of rows
    in insertion order, the disk as the list of paths that exist, and the
    JobStore (an external collaborator) as the trace of the calls made to it.
    Methods are computations in a state-and-exception monad; each [while]
    loop is a [Fixpoint] on a bound of its iterations.

    Reading conventions.  The source is a draft, and several of its
    statements cannot run.  Each is embedded as what the interpreter does
    with it:
    - a string that is not SQL ([SELECT UNIQUE(owner)],
      [UPDATE .. SET (a = ?, b = ?)], [SELECT (id, path)]) makes
      [cur.execute] raise [OperationalError] when the statement is
      compiled, before a row is read or written;
    - a call that passes more bindings than the statement has placeholders
      raises [ProgrammingError];
    - a name that is not bound ([fileID] for [fileStoreID], [jobTmp] for
      [jobTemp], [pid] before its assignment) raises [NameError];
    - an attribute that does not exist ([con.Cursor], [cur.fetch]) raises
      [AttributeError];
    - a Python integer beyond 64 bits, bound to a statement, raises
      [OverflowError].
    A function without a [return] yields [None], an SQL aggregate over no
    rows yields NULL, and comparing [None] with a number raises [TypeError]
    (the source names [FileNotFoundError], so it is Python 3 code).  A
    statement run before an exception stays visible to the connection that
    ran it: the tables are this worker's view.

    The helpers [_pidExists], [_getCachedPath] and the process and job
    identity are not defined in this file; they are fields of [Env].
    Integers are [Z].  SQLite computes in 64 bits: the accounting queries
    are exact as long as their sums and differences stay within that range
    ([query_fits]), which is every table a node can hold. *)

From Stdlib Require Import ZArith List String Bool Lia.
Import ListNotations.
Open Scope string_scope.
Open Scope list_scope.
Open Scope Z_scope.

(** ** Data model: the four tables *)

(** File states (class docstring, lines 115-137). *)
Inductive FileState : Type := downloading | cached | uploading | deleting.

(** Reference states (class docstring, lines 143-156). *)
Inductive RefState : Type := immutable | copying | mutable.

Definition FileState_eqb (a b : FileState) : bool :=
  match a, b with
  | downloading, downloading | cached, cached
  | uploading, uploading | deleting, deleting => true
  | _, _ => false
  end.

Definition RefState_eqb (a b : RefState) : bool :=
  match a, b with
  | immutable, immutable | copying, copying | mutable, mutable => true
  | _, _ => false
  end.

(** [CREATE TABLE files (id, path, size, state, owner)]; [owner] is the only
    nullable column. *)
Record File : Type := mkFile {
  f_id : string;
  f_path : string;
  f_size : Z;
  f_state : FileState;
  f_owner : option Z
}.

(** [CREATE TABLE refs (path, file_id, job_id, state)]. *)
Record Ref : Type := mkRef {
  r_path : string;
  r_file_id : string;
  r_job_id : string;
  r_state : RefState
}.

(** [CREATE TABLE jobs (id, temp, disk, worker)]; [worker] is nullable. *)
Record Job : Type := mkJob {
  j_id : string;
  j_temp : string;
  j_disk : Z;
  j_worker : option Z
}.

(** The database: rows in insertion order; [properties] maps a name to a
    value. *)
Record DB : Type := mkDB {
  files : list File;
  refs : list Ref;
  jobs : list Job;
  properties : list (string * Z)
}.

(** ** SQL building blocks *)

(** [col = ?] on a nullable integer column: never true when either side is
    NULL. *)
Definition sql_eq (col param : option Z) : bool :=
  match col, param with
  | Some a, Some b => a =? b
  | _, _ => false
  end.

(** [col IS NULL]. *)
Definition is_null (col : option Z) : bool :=
  match col with None => true | Some _ => false end.

(** [SUM(..)]: NULL over no rows, the sum otherwise (the summed columns
    are NOT NULL). *)
Definition sql_sum (l : list Z) : option Z :=
  match l with
  | [] => None
  | _ :: _ => Some (fold_right Z.add 0 l)
  end.

(** [a - b] in SQL: NULL as soon as one operand is NULL. *)
Definition sql_sub (a b : option Z) : option Z :=
  match a, b with
  | Some x, Some y => Some (x - y)
  | _, _ => None
  end.

(** [SELECT value FROM properties WHERE name = ?], as a scalar. *)
Fixpoint property (name : string) (ps : list (string * Z)) : option Z :=
  match ps with
  | [] => None
  | (k, v) :: rest => if String.eqb k name then Some v else property name rest
  end.

(** [INSERT OR IGNORE INTO properties VALUES (?, ?)]: [name] is the primary
    key. *)
Definition insert_or_ignore_property (name : string) (v : Z)
    (ps : list (string * Z)) : list (string * Z) :=
  match property name ps with
  | Some _ => ps
  | None => ps ++ [(name, v)]
  end.

(** [UPDATE properties SET value = ? WHERE name = ?]. *)
Definition update_property (name : string) (v : Z)
    (ps : list (string * Z)) : list (string * Z) :=
  map (fun kv => if String.eqb (fst kv) name then (fst kv, v) else kv) ps.

(** [SELECT SUM(files.size) FROM refs INNER JOIN files
     ON refs.file_id = files.id WHERE refs.state = 'immutable']:
    the sizes, one per joined row. *)
Definition immutable_ref_sizes (d : DB) : list Z :=
  flat_map
    (fun r => map f_size
                (filter (fun f => String.eqb (f_id f) (r_file_id r)) (files d)))
    (filter (fun r => RefState_eqb (r_state r) immutable) (refs d)).

(** ** Space accounting (lines 268-334) *)

Definition getCacheLimit (d : DB) : option Z :=
  property "maxSpace" (properties d).

Definition getCacheUsed (d : DB) : option Z :=
  sql_sum (map f_size (files d)).

Definition getCacheExtraJobSpace (d : DB) : option Z :=
  sql_sub (sql_sum (map j_disk (jobs d))) (sql_sum (immutable_ref_sizes d)).

Definition getCacheAvailable (d : DB) : option Z :=
  sql_sub
    (sql_sub (property "maxSpace" (properties d))
             (sql_sum (map f_size (files d))))
    (sql_sub (sql_sum (map j_disk (jobs d)))
             (sql_sum (immutable_ref_sizes d))).

(** The quantities of the specification, over all rows and with an empty
    sum counted as zero. *)
Definition total (l : list Z) : Z := fold_right Z.add 0 l.

Definition spec_used (d : DB) : Z := total (map f_size (files d)).

Definition spec_job_overhead (d : DB) : Z :=
  total (map j_disk (jobs d)) - total (immutable_ref_sizes d).

(** What SQLite stores in an INTEGER column: 64 bits, signed. *)
Definition int64 (z : Z) : bool := (- 2 ^ 63 <=? z) && (z <? 2 ^ 63).

(** A column SUM stays within 64 bits: the values are sizes (not negative)
    and so is every partial sum. *)
Definition sum_fits (l : list Z) : Prop :=
  Forall (fun z => 0 <= z) l /\ total l < 2 ^ 63.

(** The accounting queries at [d] compute in 64 bits without overflow:
    the limit, the three sums and the result of the last subtraction. *)
Definition query_fits (d : DB) : Prop :=
  sum_fits (map f_size (files d)) /\
  sum_fits (map j_disk (jobs d)) /\
  sum_fits (immutable_ref_sizes d) /\
  match property "maxSpace" (properties d) with
  | Some m =>
      0 <= m < 2 ^ 63 /\
      int64 (m - total (map f_size (files d))
             - (total (map j_disk (jobs d)) - total (immutable_ref_sizes d)))
        = true
  | None => True
  end.

(** ** The world a worker acts on *)

(** Calls made to the JobStore, oldest first. *)
Inductive JSCall : Type :=
| JS_getEmptyFileStoreID (fileID : string)
| JS_readFile (fileID dst : string)
| JS_updateFile (fileID src : string)
| JS_deleteFile (fileID : string)
| JS_update
| JS_delete (jobStoreID : string).

Record State : Type := mkState {
  db : DB;
  disk : list string;          (* the paths that exist *)
  jobStore : list JSCall;      (* trace of JobStore calls *)
  filesToDelete : list string  (* self.filesToDelete *)
}.

(** What a worker knows about itself and its node. *)
Record Env : Type := mkEnv {
  pid : Z;                                (* os.getpid() *)
  pidExists : option Z -> bool;           (* self._pidExists, on a column value *)
  jobID : string;                         (* self.jobID *)
  jobStoreID : string;                    (* self.jobGraph.jobStoreID *)
  localTempDir : string;                  (* self.localTempDir *)
  getCachedPath : string -> string;       (* self._getCachedPath *)
  canLink : string -> string -> bool      (* the filesystem allows link(src, dst) *)
}.

(** Python exceptions the store can raise or meet. *)
Inductive exn : Type :=
| OSError
| IntegrityError                     (* sqlite3: a PRIMARY KEY or UNIQUE clash *)
| OperationalError                   (* sqlite3: the statement does not compile *)
| ProgrammingError                   (* sqlite3: wrong number of bindings *)
| OverflowError                      (* sqlite3: integer beyond 64 bits *)
| RuntimeError (msg : string)
| InUseError (fileID job : string)   (* RuntimeError('.. still in use by job ..') *)
| TypeError
| AttributeError
| NameError.                         (* and its subclass UnboundLocalError *)

Inductive outcome (A : Type) : Type :=
| Ok (a : A)
| Raise (e : exn)
| OutOfFuel.
Arguments Ok {A} a.
Arguments Raise {A} e.
Arguments OutOfFuel {A}.

(** State and exception monad. *)
Definition M (A : Type) : Type := State -> outcome A * State.

Definition ret {A} (a : A) : M A := fun s => (Ok a, s).

Definition bind {A B} (m : M A) (k : A -> M B) : M B :=
  fun s =>
    match m s with
    | (Ok a, s') => k a s'
    | (Raise e, s') => (Raise e, s')
    | (OutOfFuel, s') => (OutOfFuel, s')
    end.

Definition raise {A} (e : exn) : M A := fun s => (Raise e, s).

Definition gets {A} (f : State -> A) : M A := fun s => (Ok (f s), s).

Definition modify (f : State -> State) : M unit := fun s => (Ok tt, f s).

Notation "x <- m ;; k" := (bind m (fun x => k))
  (at level 61, m at next level, right associativity).
Notation "m ;; k" := (bind m (fun _ => k))
  (at level 61, right associativity).

(** [try: m except OSError: h]. *)
Definition except_OSError {A} (m : M A) (h : M A) : M A :=
  fun s =>
    match m s with
    | (Raise OSError, s') => h s'
    | r => r
    end.

(** [for x in l: body x]. *)
Fixpoint for_each {A} (l : list A) (body : A -> M unit) : M unit :=
  match l with
  | [] => ret tt
  | x :: rest => body x ;; for_each rest body
  end.

(** A [for] loop that carries a local accumulator. *)
Fixpoint for_fold {A B} (l : list A) (acc : B) (body : B -> A -> M B) : M B :=
  match l with
  | [] => ret acc
  | x :: rest => acc' <- body acc x ;; for_fold rest acc' body
  end.

(** Python's [v < n], [v > n], [v >= n] for [v] an integer or [None]. *)
Definition py_lt (v : option Z) (n : Z) : M bool :=
  match v with
  | None => raise TypeError
  | Some x => ret (x <? n)
  end.

Definition py_gt (v : option Z) (n : Z) : M bool :=
  match v with
  | None => raise TypeError
  | Some x => ret (x >? n)
  end.

Definition py_ge (v : option Z) (n : Z) : M bool :=
  match v with
  | None => raise TypeError
  | Some x => ret (x >=? n)
  end.

(** Statements that cannot run.  The argument is the text of the source,
    kept for the reader; the outcome does not depend on it. *)

(** [cur.execute] on a string that is not SQL. *)
Definition execute_malformed {A} (statement : string) : M A :=
  raise OperationalError.

(** [cur.execute] with [bindings] values for a statement that has another
    number of placeholders. *)
Definition execute_misbound {A} (statement : string) (bindings : nat) : M A :=
  raise ProgrammingError.

(** Evaluating a name that is not bound. *)
Definition unbound_name {A} (name : string) : M A := raise NameError.

(** Getting an attribute the object does not have. *)
Definition no_attribute {A} (attribute : string) : M A := raise AttributeError.

(** State updates on one component. *)
Definition set_db (d : DB) (s : State) : State :=
  mkState d (disk s) (jobStore s) (filesToDelete s).

Definition set_disk (dk : list string) (s : State) : State :=
  mkState (db s) dk (jobStore s) (filesToDelete s).

Definition set_files (fs : list File) (d : DB) : DB :=
  mkDB fs (refs d) (jobs d) (properties d).

Definition set_refs (rs : list Ref) (d : DB) : DB :=
  mkDB (files d) rs (jobs d) (properties d).

Definition set_jobs (js : list Job) (d : DB) : DB :=
  mkDB (files d) (refs d) js (properties d).

Definition set_properties (ps : list (string * Z)) (d : DB) : DB :=
  mkDB (files d) (refs d) (jobs d) ps.

(** [UPDATE files SET .. WHERE ..], [DELETE FROM files WHERE ..]. *)
Definition update_files (cond : File -> bool) (upd : File -> File) : M unit :=
  modify (fun s =>
    set_db (set_files (map (fun f => if cond f then upd f else f)
                           (files (db s))) (db s)) s).

Definition delete_files (cond : File -> bool) : M unit :=
  modify (fun s =>
    set_db (set_files (filter (fun f => negb (cond f)) (files (db s))) (db s)) s).

Definition update_refs (cond : Ref -> bool) (upd : Ref -> Ref) : M unit :=
  modify (fun s =>
    set_db (set_refs (map (fun r => if cond r then upd r else r)
                          (refs (db s))) (db s)) s).

Definition delete_refs (cond : Ref -> bool) : M unit :=
  modify (fun s =>
    set_db (set_refs (filter (fun r => negb (cond r)) (refs (db s))) (db s)) s).

Definition update_jobs (cond : Job -> bool) (upd : Job -> Job) : M unit :=
  modify (fun s =>
    set_db (set_jobs (map (fun j => if cond j then upd j else j)
                          (jobs (db s))) (db s)) s).

Definition delete_jobs (cond : Job -> bool) : M unit :=
  modify (fun s =>
    set_db (set_jobs (filter (fun j => negb (cond j)) (jobs (db s))) (db s)) s).

(** [INSERT INTO files VALUES ..]: [id] is the primary key and [path] is
    UNIQUE. *)
Definition file_conflict (f : File) (fs : list File) : bool :=
  existsb (fun g => String.eqb (f_id g) (f_id f)
                    || String.eqb (f_path g) (f_path f)) fs.

Definition insert_file (f : File) : M unit :=
  fun s =>
    if file_conflict f (files (db s)) then (Raise IntegrityError, s)
    else (Ok tt, set_db (set_files (files (db s) ++ [f]) (db s)) s).

(** [INSERT INTO refs ..]: [path] is the primary key. *)
Definition ref_conflict (r : Ref) (rs : list Ref) : bool :=
  existsb (fun q => String.eqb (r_path q) (r_path r)) rs.

Definition insert_ref (r : Ref) : M unit :=
  fun s =>
    if ref_conflict r (refs (db s)) then (Raise IntegrityError, s)
    else (Ok tt, set_db (set_refs (refs (db s) ++ [r]) (db s)) s).

(** [INSERT INTO jobs ..]: [id] is the primary key.  [disk] is the
    caller's number: binding it fails beyond 64 bits, before the statement
    runs. *)
Definition insert_job (j : Job) : M unit :=
  fun s =>
    if negb (int64 (j_disk j)) then (Raise OverflowError, s)
    else if existsb (fun k => String.eqb (j_id k) (j_id j)) (jobs (db s))
    then (Raise IntegrityError, s)
    else (Ok tt, set_db (set_jobs (jobs (db s) ++ [j]) (db s)) s).

(** ** The disk *)

Definition path_exists (p : string) (dk : list string) : bool :=
  existsb (String.eqb p) dk.

Definition remove_path (p : string) (dk : list string) : list string :=
  filter (fun q => negb (String.eqb p q)) dk.

Definition add_path (p : string) (dk : list string) : list string :=
  if path_exists p dk then dk else dk ++ [p].

(** [os.unlink(p)], [os.remove(p)]: OSError when [p] is missing. *)
Definition os_unlink (p : string) : M unit :=
  fun s =>
    if path_exists p (disk s)
    then (Ok tt, set_disk (remove_path p (disk s)) s)
    else (Raise OSError, s).

(** [p] is [d] or lies beneath it. *)
Definition beneath (d p : string) : bool :=
  String.eqb d p || String.prefix (d ++ "/") p.

(** [shutil.rmtree(d)]: FileNotFoundError (an OSError) when [d] is missing. *)
Definition os_rmtree (d : string) : M unit :=
  fun s =>
    if path_exists d (disk s)
    then (Ok tt, set_disk (filter (fun p => negb (beneath d p)) (disk s)) s)
    else (Raise OSError, s).

(** [os.rmdir(d)]: OSError when [d] is missing or not empty. *)
Definition os_rmdir (d : string) : M unit :=
  fun s =>
    if path_exists d (disk s)
       && negb (existsb (fun p => String.prefix (d ++ "/") p) (disk s))
    then (Ok tt, set_disk (remove_path d (disk s)) s)
    else (Raise OSError, s).

(** [tempfile.mkdtemp] returning [d]. *)
Definition mkdtemp (d : string) : M unit :=
  modify (fun s => set_disk (add_path d (disk s)) s).

(** ** The JobStore, as a trace *)

Definition js_call (c : JSCall) : M unit :=
  modify (fun s =>
    mkState (db s) (disk s) (jobStore s ++ [c]) (filesToDelete s)).

(** [jobStore.readFile(fileID, dst, ..)] materialises [dst]. *)
Definition js_readFile (fileID dst : string) : M unit :=
  js_call (JS_readFile fileID dst) ;;
  modify (fun s => set_disk (add_path dst (disk s)) s).

Definition oZ_eq_dec (a b : option Z) : {a = b} + {a <> b}.
Proof. decide equality. apply Z.eq_dec. Defined.

(** Row updates used by the statements below. *)
Definition set_owner_state (o : option Z) (st : FileState) (f : File) : File :=
  mkFile (f_id f) (f_path f) (f_size f) st o.

Definition set_ref_state (st : RefState) (r : Ref) : Ref :=
  mkRef (r_path r) (r_file_id r) (r_job_id r) st.

Definition set_worker (w : option Z) (j : Job) : Job :=
  mkJob (j_id j) (j_temp j) (j_disk j) w.

Section Store.

Variable env : Env.

(** Bound on the iterations of each [while] loop. *)
Variable fuel : nat.

(** [os.link(src, dst)]. *)
Definition os_link (src dst : string) : M unit :=
  fun s =>
    if canLink env src dst && path_exists src (disk s)
       && negb (path_exists dst (disk s))
    then (Ok tt, set_disk (add_path dst (disk s)) s)
    else (Raise OSError, s).

(** [adjustCacheLimit] (lines 352-358).  [newTotalBytes] is bound to the
    UPDATE. *)
Definition adjustCacheLimit (newTotalBytes : Z) : M unit :=
  if int64 newTotalBytes then
    modify (fun s =>
      set_db (set_properties
                (update_property "maxSpace" newTotalBytes (properties (db s)))
                (db s)) s)
  else raise OverflowError.

(** [fileIsCached] (lines 360-371). *)
Definition fileIsCached (fileID : string) (d : DB) : bool :=
  0 <? Z.of_nat (List.length (filter
      (fun f => String.eqb (f_id f) fileID && FileState_eqb (f_state f) cached)
      (files d))).

(** [getFileReaderCount] (lines 373-382). *)
Definition getFileReaderCount (fileID : string) (d : DB) : Z :=
  Z.of_nat (List.length (filter (fun r => String.eqb (r_file_id r) fileID) (refs d))).

(** [cachingIsFree] (lines 385-431).  [isFileJobStore] is the [isinstance]
    test, [emptyID] the ID the JobStore hands out, [destDir] the directory
    [mkdtemp] makes and [nlink] the [st_nlink] that [os.stat] reports for the
    copy read out. *)
Definition cachingIsFree (isFileJobStore : bool) (emptyID destDir : string)
    (nlink : Z) : M bool :=
  stored <- gets (fun s => property "freeCaching" (properties (db s))) ;;
  match stored with
  | Some v => ret (v =? 1)
  | None =>
      free <- (if isFileJobStore then
                 js_call (JS_getEmptyFileStoreID emptyID) ;;
                 mkdtemp destDir ;;
                 let cachedFile := (destDir ++ "/sniffLinkCount")%string in
                 js_readFile emptyID cachedFile ;;
                 let free := if nlink =? 2 then 1 else 0 in
                 os_unlink cachedFile ;;
                 os_rmdir destDir ;;
                 js_call (JS_deleteFile emptyID) ;;
                 ret free
               else ret 0) ;;
      modify (fun s =>
        set_db (set_properties
                  (insert_or_ignore_property "freeCaching" free
                     (properties (db s))) (db s)) s) ;;
      ret (free =? 1)
  end.

(** The three UPDATEs of [_stealWorkFromTheDead] for one dead owner
    (lines 457-480): each spells its assignments in parentheses. *)
Definition adopt_files_of (owner : option Z) : M unit :=
  execute_malformed (A := unit)
    "UPDATE files SET (owner = ?, state = ?) WHERE owner = ? AND state = ?" ;;
  execute_malformed (A := unit)
    "UPDATE files SET (owner = ?, state = ?) WHERE owner = ? AND state = ?" ;;
  execute_malformed (A := unit)
    "UPDATE files SET (owner = NULL, state = ?) WHERE owner = ? AND state = ?".

(** [_stealWorkFromTheDead] (lines 436-480).  Its first statement, the
    SELECT of line 447, is not SQL. *)
Definition _stealWorkFromTheDead : M unit :=
  owners <- execute_malformed (A := list (option Z))
              "SELECT UNIQUE(owner) FROM files" ;;
  let deadOwners := filter (fun o => negb (pidExists env o)) owners in
  for_each deadOwners adopt_files_of.

(** [_executePendingDeletions] (lines 482-511).  The SELECT of line 494
    puts its two columns in parentheses, a row value where a column is
    expected.  In the loop a failed unlink takes the [continue], which
    skips the [append]; the function has no [return]. *)
Definition _executePendingDeletions : M (option Z) :=
  rows <- execute_malformed (A := list File)
            "SELECT (id, path) FROM files WHERE owner = ? AND state = ?" ;;
  deletedFiles <- for_fold rows []
    (fun acc row =>
       except_OSError
         (os_unlink (f_path row) ;; ret (acc ++ [f_id row]))
         (ret acc)) ;;
  for_each deletedFiles
    (fun fileID =>
       delete_files (fun f => String.eqb (f_id f) fileID
                              && FileState_eqb (f_state f) deleting) ;;
       delete_refs (fun r => String.eqb (r_file_id r) fileID)) ;;
  ret None.

(** [_executePendingUploads] (lines 513-536). *)
Definition _executePendingUploads : M (option Z) :=
  rows <- gets (fun s =>
            filter (fun f => FileState_eqb (f_state f) uploading
                             && sql_eq (f_owner f) (Some (pid env)))
                   (files (db s))) ;;
  uploadedIDs <- for_fold rows []
    (fun acc row =>
       js_call (JS_updateFile (f_id row) (f_path row)) ;;
       ret (acc ++ [f_id row])) ;;
  for_each uploadedIDs
    (fun fileID =>
       update_files (fun f => String.eqb (f_id f) fileID)
                    (set_owner_state None cached)) ;;
  ret (Some (Z.of_nat (List.length uploadedIDs))).

(** The [while True] loop of [_removeDeadJobs] (lines 1093-1137).  Both
    SELECTs put their columns in parentheses, and [rmtree] is given
    [jobTmp] where the variable is [jobTemp]. *)
Fixpoint removeDeadJobs_loop (n : nat) : M unit :=
  match n with
  | O => fun s => (OutOfFuel, s)
  | S n' =>
      row <- execute_malformed (A := option Job)
               "SELECT (id, temp) FROM jobs WHERE worker IS NULL LIMIT 1" ;;
      match row with
      | None => ret tt
      | Some row =>
          update_jobs
            (fun j => String.eqb (j_id j) (j_id row) && is_null (j_worker j))
            (set_worker (Some (pid env))) ;;
          won <- execute_malformed (A := option Job)
                   "SELECT (id, temp) FROM jobs WHERE id = ? AND worker = ?" ;;
          match won with
          | None => removeDeadJobs_loop n'
          | Some row =>
              let jobId := j_id row in
              paths <- gets (fun s =>
                         map r_path
                           (filter (fun r => String.eqb (r_job_id r) jobId)
                                   (refs (db s)))) ;;
              for_each paths
                (fun p => except_OSError (os_unlink p) (ret tt)) ;;
              delete_refs (fun r => String.eqb (r_job_id r) jobId) ;;
              unbound_name (A := unit) "jobTmp" ;;
              delete_jobs (fun j => String.eqb (j_id j) jobId) ;;
              removeDeadJobs_loop n'
          end
      end
  end.

(** [SELECT DISTINCT worker FROM jobs WHERE worker IS NOT NULL]. *)
Definition distinct_workers (js : list Job) : list (option Z) :=
  nodup oZ_eq_dec (filter (fun w => negb (is_null w)) (map j_worker js)).

(** [_removeDeadJobs] (lines 1058-1139).  Its first statement asks the
    connection for [Cursor] (the method is [cursor]); the UPDATE of line
    1086 is given [pid], a local assigned only at line 1091. *)
Definition _removeDeadJobs : M unit :=
  no_attribute (A := unit) "Cursor" ;;
  workers <- gets (fun s => distinct_workers (jobs (db s))) ;;
  let deadWorkers := filter (fun w => negb (pidExists env w)) workers in
  for_each deadWorkers (fun deadWorker => unbound_name "pid") ;;
  removeDeadJobs_loop fuel.

(** The recovery engine: dead jobs, then dead owners' files (lines 582-585
    and 818-819). *)
Definition recover : M unit :=
  _removeDeadJobs ;; _stealWorkFromTheDead.

(** [_tryToFreeUpSpace] (lines 574-631).  After the eviction SELECT (lines
    603-607) the row is asked of [cur.fetch] (the method is [fetchone]);
    the UPDATE of lines 619-625 is given [pid], which this function never
    binds. *)
Definition _tryToFreeUpSpace : M unit :=
  _removeDeadJobs ;;
  _stealWorkFromTheDead ;;
  deleted <- _executePendingDeletions ;;
  some_deleted <- py_gt deleted 0 ;;
  if some_deleted then ret tt else
  uploaded <- _executePendingUploads ;;
  some_uploaded <- py_gt uploaded 0 ;;
  if some_uploaded then ret tt else
  row <- no_attribute (A := option File) "fetch" ;;
  match row with
  | None => ret tt
  | Some row =>
      unbound_name (A := unit) "pid" ;;
      deleted <- _executePendingDeletions ;;
      some_deleted <- py_gt deleted 0 ;;
      if some_deleted then ret tt else ret tt
  end.

(** The [while] loop of [_freeUpSpace] (lines 633-641). *)
Fixpoint freeUpSpace_loop (n : nat) : M unit :=
  avail <- gets (fun s => getCacheAvailable (db s)) ;;
  over <- py_lt avail 0 ;;
  if over then
    match n with
    | O => fun s => (OutOfFuel, s)
    | S n' => _tryToFreeUpSpace ;; freeUpSpace_loop n'
    end
  else ret tt.

Definition _freeUpSpace : M unit := freeUpSpace_loop fuel.

(** [_allocateSpaceForJob] (lines 540-572). *)
Definition _allocateSpaceForJob (newJobReqs : Z) : M unit :=
  insert_job (mkJob (jobID env) (localTempDir env) newJobReqs (Some (pid env))) ;;
  avail <- gets (fun s => getCacheAvailable (db s)) ;;
  fine <- py_ge avail 0 ;;
  if fine then ret tt else _freeUpSpace.

(** Entering [open(job)] (lines 647-663): what runs before the job body.
    Line 655 makes the per-job directory; [localTempDir env] is its
    path. *)
Definition open (jobDisk : Z) : M unit :=
  mkdtemp (localTempDir env) ;;
  _removeDeadJobs ;;
  _allocateSpaceForJob jobDisk.

(** [writeGlobalFile] (lines 694-746).  [absLocalFileName] is the resolved
    path, [fileSize] what [os.stat] reports for it and [fileID] the ID
    the JobStore hands out.  The result is the [FileID]: ID and size. *)
Definition writeGlobalFile (absLocalFileName : string) (fileSize : Z)
    (fileID : string) : M (string * Z) :=
  present <- gets (fun s => path_exists absLocalFileName (disk s)) ;;
  if negb present then raise OSError else
  let creatorID := jobStoreID env in
  js_call (JS_getEmptyFileStoreID fileID) ;;
  let cachePath := getCachedPath env fileID in
  insert_file (mkFile fileID cachePath fileSize uploading (Some (pid env))) ;;
  insert_ref (mkRef absLocalFileName fileID creatorID immutable) ;;
  except_OSError
    (os_link absLocalFileName cachePath)
    (update_refs (fun r => String.eqb (r_path r) absLocalFileName)
                 (set_ref_state mutable) ;;
     delete_files (fun f => String.eqb (f_id f) fileID) ;;
     js_call (JS_updateFile fileID absLocalFileName)) ;;
  ret (fileID, fileSize).

(** [readGlobalFile] (lines 748-933).  [tempName] is the name
    [getLocalTempFileName] would make.  With [cache] set, the first
    statement after the destination is chosen (line 766) asks for the
    cached path of [fileID], a name the function does not bind (its
    parameter is [fileStoreID]); no statement after it can run, and the
    embedding stops there.  Lines 767-933 name [fileID] again (lines 783,
    792, 834, 873, 895, 921) and [filID] (line 783), pass a string where
    the bindings are expected (line 809), repeat the parenthesised SET
    (line 890) and call [os.move], which does not exist (line 917). *)
Definition readGlobalFile (fileStoreID : string)
    (userPath : option string) (tempName : string)
    (cache mutable_ symlink : bool) : M string :=
  localFilePath <-
    match userPath with
    | Some p =>
        present <- gets (fun s => path_exists p (disk s)) ;;
        if present then raise (RuntimeError "exists. Cannot Overwrite.")
        else ret p
    | None => ret tempName
    end ;;
  if negb cache then
    js_readFile fileStoreID localFilePath ;; ret localFilePath
  else
  unbound_name "fileID".

(** The references [deleteLocalFile] works on: those of the current job to
    [fileStoreID]. *)
Definition own_ref (fileStoreID : string) (r : Ref) : bool :=
  String.eqb (r_file_id r) fileStoreID
  && String.eqb (r_job_id r) (jobStoreID env).

(** The reference-removal step of [deleteLocalFile] (lines 942-951). *)
Definition deleteLocalFile_references (fileStoreID : string) : M unit :=
  paths <- gets (fun s =>
             map r_path (filter (own_ref fileStoreID) (refs (db s)))) ;;
  for_each paths os_unlink ;;
  delete_refs (own_ref fileStoreID).

(** [deleteLocalFile] (lines 941-955). *)
Definition deleteLocalFile (fileStoreID : string) : M unit :=
  deleteLocalFile_references fileStoreID ;;
  _freeUpSpace.

(** [self.filesToDelete.add(..)]. *)
Definition filesToDelete_add (fileID : string) : M unit :=
  modify (fun s =>
    mkState (db s) (disk s) (jobStore s)
            (if existsb (String.eqb fileID) (filesToDelete s)
             then filesToDelete s else filesToDelete s ++ [fileID])).

(** [deleteGlobalFile] (lines 957-981).  The SELECT of line 965 has one
    placeholder and is given two values, [(fileStoreID, 'mutable')]. *)
Definition deleteGlobalFile (fileStoreID : string) : M unit :=
  deleteLocalFile fileStoreID ;;
  rows <- execute_misbound (A := list Ref)
            "SELECT job_id FROM refs WHERE file_id = ?" 2 ;;
  match rows with
  | row :: _ => raise (InUseError fileStoreID (r_job_id row))
  | [] =>
      update_files (fun f => String.eqb (f_id f) fileStoreID)
                   (set_owner_state (Some (pid env)) deleting) ;;
      _executePendingDeletions ;;
      filesToDelete_add fileStoreID
  end.

(** [commitCurrentJob] (lines 990-1013); on an exception the handler only
    sets the termination event and re-raises. *)
Definition commitCurrentJob (jobsToDelete : list string) : M unit :=
  _executePendingUploads ;;
  _executePendingDeletions ;;
  js_call JS_update ;;
  for_each jobsToDelete (fun j => js_call (JS_delete j)) ;;
  toDelete <- gets filesToDelete ;;
  for_each toDelete (fun f => js_call (JS_deleteFile f)) ;;
  match toDelete with
  | [] => ret tt
  | _ :: _ => js_call JS_update
  end.

(** [shutdown] (lines 1015-1049).  The calls of lines 1041-1046 stand in
    the [else] of the [try], which the bare [except] does not cover; line
    1046 closes [cur], a name the function does not bind. *)
Definition shutdown (dir_ : string) : M unit :=
  present <- gets (fun s => path_exists (dir_ ++ "/cache.db")%string (disk s)) ;;
  (if present then _removeDeadJobs ;; unbound_name "cur" else ret tt) ;;
  os_rmtree dir_.

(** The operations of the store, with the values their environment
    supplies. *)
Inductive Op : Type :=
| OpAdjustCacheLimit (newTotalBytes : Z)
| OpCachingIsFree (isFileJobStore : bool) (emptyID destDir : string) (nlink : Z)
| OpStealWorkFromTheDead
| OpExecutePendingDeletions
| OpExecutePendingUploads
| OpRemoveDeadJobs
| OpTryToFreeUpSpace
| OpFreeUpSpace
| OpAllocateSpaceForJob (newJobReqs : Z)
| OpOpen (jobDisk : Z)
| OpWriteGlobalFile (absLocalFileName : string) (fileSize : Z) (fileID : string)
| OpReadGlobalFile (fileStoreID : string) (userPath : option string)
    (tempName : string) (cache mutable_ symlink : bool)
| OpDeleteLocalFile (fileStoreID : string)
| OpDeleteGlobalFile (fileStoreID : string)
| OpCommitCurrentJob (jobsToDelete : list string)
| OpShutdown (dir_ : string).

Definition forget {A} (m : M A) : M unit := m ;; ret tt.

Definition run (op : Op) : M unit :=
  match op with
  | OpAdjustCacheLimit n => adjustCacheLimit n
  | OpCachingIsFree fjs e d n => forget (cachingIsFree fjs e d n)
  | OpStealWorkFromTheDead => _stealWorkFromTheDead
  | OpExecutePendingDeletions => forget _executePendingDeletions
  | OpExecutePendingUploads => forget _executePendingUploads
  | OpRemoveDeadJobs => _removeDeadJobs
  | OpTryToFreeUpSpace => _tryToFreeUpSpace
  | OpFreeUpSpace => _freeUpSpace
  | OpAllocateSpaceForJob n => _allocateSpaceForJob n
  | OpOpen n => open n
  | OpWriteGlobalFile p sz f => forget (writeGlobalFile p sz f)
  | OpReadGlobalFile f u t c m sl => forget (readGlobalFile f u t c m sl)
  | OpDeleteLocalFile f => deleteLocalFile f
  | OpDeleteGlobalFile f => deleteGlobalFile f
  | OpCommitCurrentJob js => commitCurrentJob js
  | OpShutdown d => shutdown d
  end.

End Store.

(** ** Properties stated in the specification's words *)

(** Data-model invariant: [owner] is null iff [state = cached]. *)
Definition owner_null_iff_cached (f : File) : Prop :=
  f_owner f = None <-> f_state f = cached.

Definition files_inv (d : DB) : Prop := Forall owner_null_iff_cached (files d).

(** Recovery, phase A, per file: a file of a dead owner is remapped by its
    state; any other file stays as it is. *)
Definition spec_adopt (env : Env) (f : File) : File :=
  match f_owner f with
  | None => f
  | Some o =>
      if pidExists env (Some o) then f
      else match f_state f with
           | deleting => set_owner_state (Some (pid env)) deleting f
           | downloading => set_owner_state (Some (pid env)) deleting f
           | uploading => set_owner_state None cached f
           | cached => f
           end
  end.


(** ** Concrete worlds used to exercise the statements *)

(** Worker 100 on a node where PIDs 100 and 41 are alive, on a filesystem
    that refuses links. *)
Definition env0 : Env :=
  mkEnv 100
        (fun o => match o with
                  | Some p => (p =? 100) || (p =? 41)
                  | None => false
                  end)
        "5e1f" "J1" "/tmp/w/j1"
        (fun fileID => ("/cache/" ++ fileID)%string)
        (fun _ _ => false).

(** The same worker on a filesystem that allows links. *)
Definition env1 : Env :=
  mkEnv 100 (pidExists env0) "5e1f" "J1" "/tmp/w/j1" (getCachedPath env0)
        (fun _ _ => true).


(** One running job, nothing cached yet. *)
Definition db_first_job : DB :=
  mkDB [] [] [mkJob "5e1f" "/tmp/w/j1" 300 (Some 100)] [("maxSpace", 1000)].

(** A cache in balance: 700 bytes cached, a job of 500 bytes holding an
    immutable reference to a 200-byte file. *)
Definition db_balanced : DB :=
  mkDB [mkFile "F4" "/cache/F4" 500 cached None;
        mkFile "F5" "/cache/F5" 200 cached None]
       [mkRef "/tmp/w/j1/f5" "F5" "J1" immutable]
       [mkJob "5e1f" "/tmp/w/j1" 500 (Some 100)]
       [("maxSpace", 1000)].

Definition world (d : DB) (dk : list string) : State := mkState d dk [] [].

(** Files left behind by dead worker 7, next to files of live workers. *)
Definition db_after_crash : DB :=
  mkDB [mkFile "F1" "/cache/F1" 10 deleting (Some 7);
        mkFile "F2" "/cache/F2" 20 downloading (Some 7);
        mkFile "F3" "/cache/F3" 30 uploading (Some 7);
        mkFile "F4" "/cache/F4" 40 uploading (Some 41);
        mkFile "F5" "/cache/F5" 50 cached None]
       [mkRef "/tmp/w/j7/f3" "F3" "J7" immutable;
        mkRef "/tmp/w/j1/f5" "F5" "J1" immutable]
       [mkJob "aa07" "/tmp/w/j7" 100 (Some 7);
        mkJob "5e1f" "/tmp/w/j1" 300 (Some 100)]
       [("maxSpace", 1000)].

Definition disk_after_crash : list string :=
  ["/cache/F1"; "/cache/F3"; "/cache/F4"; "/cache/F5";
   "/tmp/w/j7"; "/tmp/w/j7/f3"; "/tmp/w/j1"; "/tmp/w/j1/f5"].

(** File F5 referenced by the current job J1 and by another job J2. *)
Definition db_shared : DB :=
  mkDB [mkFile "F5" "/cache/F5" 50 cached None]
       [mkRef "/tmp/w/j1/f5" "F5" "J1" immutable;
        mkRef "/tmp/w/j2/f5" "F5" "J2" immutable]
       [mkJob "5e1f" "/tmp/w/j1" 300 (Some 100)]
       [("maxSpace", 1000)].

Definition disk_shared : list string :=
  ["/cache/F5"; "/tmp/w/j1/f5"; "/tmp/w/j2/f5"].

(** File F5 of the current job J1 next to file F6 held by job J2. *)
Definition db_two_files : DB :=
  mkDB [mkFile "F5" "/cache/F5" 50 cached None;
        mkFile "F6" "/cache/F6" 60 cached None]
       [mkRef "/tmp/w/j1/f5" "F5" "J1" immutable;
        mkRef "/tmp/w/j2/f6" "F6" "J2" immutable]
       [mkJob "5e1f" "/tmp/w/j1" 300 (Some 100)]
       [("maxSpace", 1000)].

Definition disk_two_files : list string :=
  ["/cache/F5"; "/cache/F6"; "/tmp/w/j1/f5"; "/tmp/w/j2/f6"].

(** Jobs that only hold mutable copies: files and jobs are there, no
    immutable reference is. *)
Definition db_only_mutable : DB :=
  mkDB [mkFile "F5" "/cache/F5" 50 cached None]
       [mkRef "/tmp/w/j1/f5" "F5" "J1" mutable]
       [mkJob "5e1f" "/tmp/w/j1" 300 (Some 100)]
       [("maxSpace", 1000)].

(** Two files of ours in state [deleting] with their cached copies in
    place, one of them referenced by a dead downloader's job. *)
Definition db_pending_present : DB :=
  mkDB [mkFile "F1" "/cache/F1" 10 deleting (Some 100);
        mkFile "F2" "/cache/F2" 20 cached None;
        mkFile "F3" "/cache/F3" 30 deleting (Some 100)]
       [mkRef "/tmp/w/j9/f1" "F1" "J9" immutable;
        mkRef "/tmp/w/j1/f2" "F2" "J1" immutable]
       [mkJob "5e1f" "/tmp/w/j1" 300 (Some 100)]
       [("maxSpace", 1000)].

Definition disk_pending_present : list string :=
  ["/cache/F1"; "/cache/F2"; "/cache/F3"; "/tmp/w/j1/f2"].




(** ** Auxiliary notions for the proofs *)

(** The rows [_executePendingUploads] uploads, and the rows
    [_executePendingDeletions] is to delete: ours, in that state. *)
Definition our_uploads (env : Env) (d : DB) : list File :=
  filter (fun f => FileState_eqb (f_state f) uploading
                   && sql_eq (f_owner f) (Some (pid env))) (files d).

Definition our_deletions (env : Env) (d : DB) : list File :=
  filter (fun f => sql_eq (f_owner f) (Some (pid env))
                   && FileState_eqb (f_state f) deleting) (files d).

(** The job row [_allocateSpaceForJob] inserts. *)
Definition own_job_row (env : Env) (newJobReqs : Z) : Job :=
  mkJob (jobID env) (localTempDir env) newJobReqs (Some (pid env)).

(** A computation that succeeds and rewrites every row of [files] by [g],
    touching nothing else. *)
Definition maps_files (m : M unit) (g : File -> File) : Prop :=
  forall s, m s = (Ok tt, set_db (set_files (map g (files (db s))) (db s)) s).

(** A computation that keeps a property of the world, whatever its
    outcome. *)
Definition preserves {A} (P : State -> Prop) (m : M A) : Prop :=
  forall s, P s -> P (snd (m s)).

(** Computations that leave the [files] table as it was, whatever their
    outcome. *)
Definition files_stable {A} (m : M A) : Prop :=
  forall s, files (db (snd (m s))) = files (db s).

(** The invariant of the [files] table, as a property of the world. *)
Definition inv (s : State) : Prop := files_inv (db s).

(** Every reference row satisfies [Qr] and every job row [Qj]. *)
Definition rows_in (Qr : Ref -> Prop) (Qj : Job -> Prop) (st : State) : Prop :=
  (forall r, In r (refs (db st)) -> Qr r) /\
  (forall j, In j (jobs (db st)) -> Qj j).

(** [r'] is the reference [r], up to its state. *)
Definition same_reference (r r' : Ref) : Prop :=
  r_path r' = r_path r /\ r_file_id r' = r_file_id r /\
  r_job_id r' = r_job_id r.

(** A reference to [fileID] held by a job other than the current one. *)
Definition referenced_elsewhere (env : Env) (fileID : string) (s : State) : Prop :=
  exists r, In r (refs (db s)) /\ r_file_id r = fileID
            /\ r_job_id r <> jobStoreID env.

(** ** Space accounting *)

Lemma sql_sum_total (l : list Z) : l <> [] -> sql_sum l = Some (total l).
Proof. destruct l; [congruence | reflexivity]. Qed.

(** Where every aggregate ranges over at least one row, the query is the
    formula of the specification. *)
Lemma getCacheAvailable_formula (d : DB) (maxSpace : Z) :
  getCacheLimit d = Some maxSpace ->
  files d <> [] -> jobs d <> [] -> immutable_ref_sizes d <> [] ->
  getCacheAvailable d = Some (maxSpace - spec_used d - spec_job_overhead d).
Proof.
  unfold getCacheLimit, getCacheAvailable, spec_used, spec_job_overhead.
  intros Hmax Hf Hj Hi. rewrite Hmax.
  rewrite !sql_sum_total; try assumption.
  - reflexivity.
  - destruct (jobs d); [congruence | discriminate].
  - destruct (files d); [congruence | discriminate].
Qed.

(** With no space missing the loop of [_freeUpSpace] is not entered:
    nothing is evicted, the world is left as it was. *)
Lemma freeUpSpace_no_eviction (env : Env) (fuel : nat) (s : State) (a : Z) :
  getCacheAvailable (db s) = Some a -> 0 <= a ->
  _freeUpSpace env fuel s = (Ok tt, s).
Proof.
  intros Ha Hpos. unfold _freeUpSpace.
  destruct fuel; simpl; unfold bind, gets, py_lt; rewrite Ha; simpl;
    (destruct (a <? 0) eqn:E; [apply Z.ltb_lt in E; lia | reflexivity]).
Qed.

(** C1, at the first job of a fresh cache: [maxSpace] is 1000, nothing is
    cached, one job reserves 300 bytes.  The specification's formula gives
    1000 - 0 - (300 - 0) = 700; the query of [getCacheAvailable] gives NULL,
    because [SUM] over the empty [files] table is NULL. *)
Lemma getCacheAvailable_null_at_first_job :
  getCacheLimit db_first_job = Some 1000 /\
  1000 - spec_used db_first_job - spec_job_overhead db_first_job = 700 /\
  getCacheAvailable db_first_job = None.
Proof. repeat split. Qed.

(** C9: with an empty [files] table or an empty [jobs] table,
    [getCacheAvailable] and [getCacheExtraJobSpace] yield NULL, and
    [getCacheUsed] yields NULL for an empty cache; the comparison of
    [_freeUpSpace] then meets [None] (a [TypeError], the world untouched),
    and so does the comparison of [_allocateSpaceForJob], made after its
    INSERT, when no file is cached. *)
Theorem accounting_null_on_empty_tables (env : Env) (fuel : nat) (s : State) :
  files (db s) = [] \/ jobs (db s) = [] ->
  getCacheAvailable (db s) = None /\
  getCacheExtraJobSpace (db s) = None /\
  (files (db s) = [] -> getCacheUsed (db s) = None) /\
  _freeUpSpace env fuel s = (Raise TypeError, s) /\
  (files (db s) = [] ->
   forall newJobReqs,
     _allocateSpaceForJob env fuel newJobReqs s =
     (insert_job (mkJob (jobID env) (localTempDir env) newJobReqs
                        (Some (pid env))) ;; raise TypeError) s).
Proof.
  intros Hempty.
  assert (Hav : forall d, files d = [] \/ jobs d = [] ->
                          getCacheAvailable d = None).
  { intros d [H | H]; unfold getCacheAvailable; rewrite H; simpl.
    - destruct (property "maxSpace" (properties d)); reflexivity.
    - destruct (property "maxSpace" (properties d)),
               (sql_sum (map f_size (files d))); reflexivity. }
  repeat split.
  - apply Hav, Hempty.
  - unfold getCacheExtraJobSpace, immutable_ref_sizes.
    destruct Hempty as [H | H]; rewrite H; simpl.
    + replace (flat_map _ _) with (@nil Z).
      * destruct (sql_sum _); reflexivity.
      * induction (filter _ (refs (db s))); simpl; auto.
    + reflexivity.
  - intros H. unfold getCacheUsed. rewrite H. reflexivity.
  - unfold _freeUpSpace.
    destruct fuel; simpl; unfold bind, gets, py_lt;
      rewrite (Hav _ Hempty); reflexivity.
  - intros Hfiles newJobReqs. unfold _allocateSpaceForJob, bind, insert_job.
    destruct (negb (int64 _)); [reflexivity |].
    destruct (existsb _ (jobs (db s))); [reflexivity |].
    unfold gets, py_ge. rewrite Hav; [reflexivity | left; exact Hfiles].
Qed.

Lemma accounting_null_on_empty_tables_witness :
  getCacheAvailable db_first_job = None /\
  _freeUpSpace env0 3 (world db_first_job []) =
    (Raise TypeError, world db_first_job []).
Proof.
  destruct (accounting_null_on_empty_tables env0 3 (world db_first_job [])
              (or_introl eq_refl)) as (Ha & _ & _ & Hf & _).
  split; [exact Ha | exact Hf].
Defined.


(** ** Statements that cannot run *)

(** Each of these methods stops at its first statement, whatever the
    tables hold, and leaves the world as it found it. *)
Lemma stealWorkFromTheDead_stops (env : Env) (s : State) :
  _stealWorkFromTheDead env s = (Raise OperationalError, s).
Proof. reflexivity. Qed.

Lemma executePendingDeletions_stops (s : State) :
  _executePendingDeletions s = (Raise OperationalError, s).
Proof. reflexivity. Qed.

Lemma removeDeadJobs_stops (env : Env) (fuel : nat) (s : State) :
  _removeDeadJobs env fuel s = (Raise AttributeError, s).
Proof. reflexivity. Qed.

Lemma tryToFreeUpSpace_stops (env : Env) (fuel : nat) (s : State) :
  _tryToFreeUpSpace env fuel s = (Raise AttributeError, s).
Proof. reflexivity. Qed.

(** C2, on a node where worker 7 died owning a [deleting], a
    [downloading] and an [uploading] file: the claimed remap would change
    the three rows, but the SELECT of line 447 is refused
    ([OperationalError]) and every row is left with its dead owner. *)
Lemma stealWorkFromTheDead_remaps_nothing :
  map (spec_adopt env0) (files db_after_crash) =
    [mkFile "F1" "/cache/F1" 10 deleting (Some 100);
     mkFile "F2" "/cache/F2" 20 deleting (Some 100);
     mkFile "F3" "/cache/F3" 30 cached None;
     mkFile "F4" "/cache/F4" 40 uploading (Some 41);
     mkFile "F5" "/cache/F5" 50 cached None] /\
  _stealWorkFromTheDead env0 (world db_after_crash disk_after_crash) =
    (Raise OperationalError, world db_after_crash disk_after_crash) /\
  files (db (snd (_stealWorkFromTheDead env0
                    (world db_after_crash disk_after_crash)))) <>
    map (spec_adopt env0) (files db_after_crash).
Proof. repeat split. discriminate. Qed.

(** C4, with two files of ours in state [deleting] and their cached
    copies on disk: the SELECT of line 494 is refused
    ([OperationalError]) before a row is read, so the call does not
    complete; both rows, both cached copies and the reference to the first
    file are still there. *)
Lemma executePendingDeletions_deletes_nothing :
  our_deletions env0 db_pending_present =
    [mkFile "F1" "/cache/F1" 10 deleting (Some 100);
     mkFile "F3" "/cache/F3" 30 deleting (Some 100)] /\
  path_exists "/cache/F1" disk_pending_present = true /\
  path_exists "/cache/F3" disk_pending_present = true /\
  _executePendingDeletions (world db_pending_present disk_pending_present) =
    (Raise OperationalError, world db_pending_present disk_pending_present).
Proof. repeat split. Qed.

(** C8: the recovery engine run twice leaves the database, the disk, the
    JobStore and the delete list as one run leaves them.  Each run stops
    at the first statement of [_removeDeadJobs] ([AttributeError]) and
    changes nothing, so the second run starts where the first did. *)
Theorem recover_twice (env : Env) (fuel : nat) (s : State) :
  let once := recover env fuel s in
  let twice := recover env fuel (snd once) in
  snd twice = snd once /\
  db (snd twice) = db (snd once) /\ disk (snd twice) = disk (snd once) /\
  once = (Raise AttributeError, s) /\ twice = once.
Proof. repeat split. Qed.

(** ** The free-caching probe *)









Lemma existsb_false_In {A} (p : A -> bool) (l : list A) (x : A) :
  existsb p l = false -> In x l -> p x = false.
Proof.
  intros H Hin. destruct (p x) eqn:E; [| reflexivity].
  rewrite <- H. symmetry. apply existsb_exists. eauto.
Qed.






(** ** Sequencing *)

Lemma bind_ok {A B} (m : M A) (k : A -> M B) (s s' : State) (a : A) :
  m s = (Ok a, s') -> (x <- m ;; k x) s = k a s'.
Proof. intros H. unfold bind. now rewrite H. Qed.

Lemma filter_none {A} (p : A -> bool) (l : list A) :
  (forall x, In x l -> p x = false) -> filter p l = [].
Proof.
  induction l as [| y l IH]; simpl; intros H; [reflexivity |].
  rewrite (H y (or_introl eq_refl)). apply IH. intros x Hx. apply H. now right.
Qed.

(** ** Properties kept by every step *)

Section Preserves.

Context {P : State -> Prop}.

Lemma preserves_ret {A} (a : A) : preserves P (ret a).
Proof. intros s H. exact H. Qed.

Lemma preserves_raise {A} (e : exn) : preserves P (@raise A e).
Proof. intros s H. exact H. Qed.

Lemma preserves_gets {A} (f : State -> A) : preserves P (gets f).
Proof. intros s H. exact H. Qed.

Lemma preserves_out_of_fuel {A} : preserves P (fun s => (@OutOfFuel A, s)).
Proof. intros s H. exact H. Qed.

Lemma preserves_bind {A B} (m : M A) (k : A -> M B) :
  preserves P m -> (forall a, preserves P (k a)) -> preserves P (bind m k).
Proof.
  intros Hm Hk s H. unfold bind. specialize (Hm s H).
  destruct (m s) as [[a | e |] s']; simpl in *; [| exact Hm | exact Hm].
  now apply Hk.
Qed.

Lemma preserves_except {A} (m h : M A) :
  preserves P m -> preserves P h -> preserves P (except_OSError m h).
Proof.
  intros Hm Hh s H. unfold except_OSError. specialize (Hm s H).
  destruct (m s) as [[a | e |] s']; simpl in *; try exact Hm.
  destruct e; simpl; try exact Hm. now apply Hh.
Qed.

Lemma preserves_for_each {A} (l : list A) (body : A -> M unit) :
  (forall x, preserves P (body x)) -> preserves P (for_each l body).
Proof.
  intros Hb. induction l as [| x l IH]; simpl.
  - apply preserves_ret.
  - apply preserves_bind; [apply Hb | intros _; exact IH].
Qed.

Lemma preserves_for_fold {A B} (l : list A) (acc : B) (body : B -> A -> M B) :
  (forall b x, preserves P (body b x)) -> preserves P (for_fold l acc body).
Proof.
  intros Hb. revert acc. induction l as [| x l IH]; intros acc; simpl.
  - apply preserves_ret.
  - apply preserves_bind; [apply Hb | intros b; apply IH].
Qed.

Lemma preserves_py_lt (v : option Z) (n : Z) : preserves P (py_lt v n).
Proof. destruct v; [apply preserves_ret | apply preserves_raise]. Qed.

Lemma preserves_py_gt (v : option Z) (n : Z) : preserves P (py_gt v n).
Proof. destruct v; [apply preserves_ret | apply preserves_raise]. Qed.

Lemma preserves_py_ge (v : option Z) (n : Z) : preserves P (py_ge v n).
Proof. destruct v; [apply preserves_ret | apply preserves_raise]. Qed.

End Preserves.

(** Structural part of a preservation proof; what is left are the
    statements that write the table the property reads. *)
Ltac pres_step :=
  first
    [ assumption
    | apply preserves_ret | apply preserves_raise | apply preserves_gets
    | apply preserves_out_of_fuel
    | apply preserves_py_lt | apply preserves_py_gt | apply preserves_py_ge
    | apply preserves_bind; [| intros ?]
    | apply preserves_except
    | apply preserves_for_each; intros ?
    | apply preserves_for_fold; intros ? ?
    | match goal with
      | |- preserves _ (match ?x with _ => _ end) => destruct x
      | |- preserves _ (let _ := _ in _) => cbv zeta
      end ].

Ltac pres := repeat pres_step.

(** Statements that do not write [files] keep any property of [files]. *)
Lemma files_stable_preserves {A} (Q : list File -> Prop) (m : M A) :
  files_stable m -> preserves (fun s => Q (files (db s))) m.
Proof. intros Hm s H. now rewrite Hm. Qed.

Ltac stable :=
  intros s;
  repeat match goal with
         | |- context [if ?b then _ else _] => destruct b
         | |- context [match ?x with _ => _ end] => destruct x
         end;
  reflexivity.

Lemma update_refs_files_stable c u : files_stable (update_refs c u).
Proof. unfold update_refs, modify. stable. Qed.
Lemma delete_refs_files_stable c : files_stable (delete_refs c).
Proof. unfold delete_refs, modify. stable. Qed.
Lemma insert_ref_files_stable r : files_stable (insert_ref r).
Proof. unfold insert_ref. stable. Qed.
Lemma update_jobs_files_stable c u : files_stable (update_jobs c u).
Proof. unfold update_jobs, modify. stable. Qed.
Lemma delete_jobs_files_stable c : files_stable (delete_jobs c).
Proof. unfold delete_jobs, modify. stable. Qed.
Lemma insert_job_files_stable j : files_stable (insert_job j).
Proof. unfold insert_job. stable. Qed.
Lemma os_unlink_files_stable p : files_stable (os_unlink p).
Proof. unfold os_unlink. stable. Qed.
Lemma os_rmtree_files_stable p : files_stable (os_rmtree p).
Proof. unfold os_rmtree. stable. Qed.
Lemma os_rmdir_files_stable p : files_stable (os_rmdir p).
Proof. unfold os_rmdir. stable. Qed.
Lemma mkdtemp_files_stable p : files_stable (mkdtemp p).
Proof. unfold mkdtemp, modify. stable. Qed.
Lemma os_link_files_stable env p q : files_stable (os_link env p q).
Proof. unfold os_link. stable. Qed.
Lemma js_call_files_stable c : files_stable (js_call c).
Proof. unfold js_call, modify. stable. Qed.
Lemma js_readFile_files_stable f p : files_stable (js_readFile f p).
Proof. unfold js_readFile, js_call, modify, bind. stable. Qed.
Lemma filesToDelete_add_files_stable f : files_stable (filesToDelete_add f).
Proof. unfold filesToDelete_add, modify. stable. Qed.
Lemma adjustCacheLimit_files_stable n : files_stable (adjustCacheLimit n).
Proof. unfold adjustCacheLimit, modify, raise. stable. Qed.

Create HintDb fstable.
#[local] Hint Resolve
  update_refs_files_stable delete_refs_files_stable insert_ref_files_stable
  update_jobs_files_stable delete_jobs_files_stable insert_job_files_stable
  os_unlink_files_stable os_rmtree_files_stable os_rmdir_files_stable
  mkdtemp_files_stable os_link_files_stable js_call_files_stable
  js_readFile_files_stable filesToDelete_add_files_stable
  adjustCacheLimit_files_stable : fstable.

(** ** The invariant of the [files] table *)

Lemma inv_of_files_stable {A} (m : M A) : files_stable m -> preserves inv m.
Proof. apply (files_stable_preserves (Forall owner_null_iff_cached)). Qed.

Lemma update_files_inv (c : File -> bool) (o : option Z) (st : FileState) :
  (o = None <-> st = cached) ->
  preserves inv (update_files c (set_owner_state o st)).
Proof.
  intros Hrow s H. unfold inv, files_inv in *. cbn.
  apply Forall_forall. intros f Hf. apply in_map_iff in Hf as (g & <- & Hg).
  destruct (c g); [exact Hrow |].
  revert g Hg. now apply Forall_forall.
Qed.

Lemma delete_files_inv (c : File -> bool) : preserves inv (delete_files c).
Proof.
  intros s H. unfold inv, files_inv in *. cbn.
  apply Forall_forall. intros f Hf. apply filter_In in Hf as [Hf _].
  revert f Hf. now apply Forall_forall.
Qed.

Lemma insert_file_inv (f : File) :
  owner_null_iff_cached f -> preserves inv (insert_file f).
Proof.
  intros Hrow s H. unfold inv, files_inv, insert_file in *.
  destruct (file_conflict f (files (db s))); cbn; [exact H |].
  apply Forall_app. split; [exact H | now constructor].
Qed.

Ltac row_ok :=
  first [ split; intros HH; first [discriminate HH | reflexivity]
        | discriminate ].

Ltac inv_step :=
  first
    [ pres_step
    | apply inv_of_files_stable; solve [auto with fstable]
    | apply inv_of_files_stable; solve [unfold modify; stable]
    | apply update_files_inv; solve [row_ok]
    | apply delete_files_inv
    | apply insert_file_inv; solve [row_ok] ].

Ltac inv_auto := repeat inv_step.

Lemma cachingIsFree_inv fjs e d n : preserves inv (cachingIsFree fjs e d n).
Proof.
  unfold cachingIsFree. inv_auto.
Qed.

Lemma stealWorkFromTheDead_inv env : preserves inv (_stealWorkFromTheDead env).
Proof. unfold _stealWorkFromTheDead, adopt_files_of. inv_auto. Qed.

Lemma executePendingDeletions_inv : preserves inv _executePendingDeletions.
Proof. unfold _executePendingDeletions. inv_auto. Qed.

Lemma executePendingUploads_inv env :
  preserves inv (_executePendingUploads env).
Proof. unfold _executePendingUploads. inv_auto. Qed.

Lemma removeDeadJobs_loop_inv env n : preserves inv (removeDeadJobs_loop env n).
Proof. induction n as [| n IH]; cbn [removeDeadJobs_loop]; inv_auto. Qed.

Lemma removeDeadJobs_inv env fuel : preserves inv (_removeDeadJobs env fuel).
Proof.
  pose proof (removeDeadJobs_loop_inv env fuel).
  unfold _removeDeadJobs. inv_auto.
Qed.

Lemma tryToFreeUpSpace_inv env fuel : preserves inv (_tryToFreeUpSpace env fuel).
Proof.
  pose proof (removeDeadJobs_inv env fuel).
  pose proof (stealWorkFromTheDead_inv env).
  pose proof executePendingDeletions_inv.
  pose proof (executePendingUploads_inv env).
  unfold _tryToFreeUpSpace. inv_auto.
Qed.

Lemma freeUpSpace_loop_inv env fuel n : preserves inv (freeUpSpace_loop env fuel n).
Proof.
  pose proof (tryToFreeUpSpace_inv env fuel).
  induction n as [| n IH]; cbn [freeUpSpace_loop]; inv_auto.
Qed.

Lemma freeUpSpace_inv env fuel : preserves inv (_freeUpSpace env fuel).
Proof. unfold _freeUpSpace. apply freeUpSpace_loop_inv. Qed.

Lemma allocateSpaceForJob_inv env fuel n :
  preserves inv (_allocateSpaceForJob env fuel n).
Proof.
  pose proof (freeUpSpace_inv env fuel).
  unfold _allocateSpaceForJob. inv_auto.
Qed.

Lemma open_inv env fuel n : preserves inv (open env fuel n).
Proof.
  pose proof (removeDeadJobs_inv env fuel).
  pose proof (allocateSpaceForJob_inv env fuel n).
  unfold open. inv_auto.
Qed.

Lemma writeGlobalFile_inv env p sz f : preserves inv (writeGlobalFile env p sz f).
Proof. unfold writeGlobalFile. inv_auto. Qed.

Lemma readGlobalFile_inv f u t c m sl :
  preserves inv (readGlobalFile f u t c m sl).
Proof. unfold readGlobalFile. inv_auto. Qed.

Lemma deleteLocalFile_inv env fuel f : preserves inv (deleteLocalFile env fuel f).
Proof.
  pose proof (freeUpSpace_inv env fuel).
  unfold deleteLocalFile, deleteLocalFile_references. inv_auto.
Qed.

Lemma deleteGlobalFile_inv env fuel f : preserves inv (deleteGlobalFile env fuel f).
Proof.
  pose proof (deleteLocalFile_inv env fuel f).
  pose proof executePendingDeletions_inv.
  unfold deleteGlobalFile. inv_auto.
Qed.

Lemma commitCurrentJob_inv env js : preserves inv (commitCurrentJob env js).
Proof.
  pose proof executePendingDeletions_inv.
  pose proof (executePendingUploads_inv env).
  unfold commitCurrentJob. inv_auto.
Qed.

Lemma shutdown_inv env fuel d : preserves inv (shutdown env fuel d).
Proof.
  pose proof (removeDeadJobs_inv env fuel).
  unfold shutdown. inv_auto.
Qed.

(** C3: every operation of the store, whatever its arguments, the
    answers of its environment and its outcome (return, exception, or a
    loop cut short), leaves the [files] table with [owner] null exactly on
    the rows whose [state] is [cached], provided it found the table so. *)
Theorem owner_null_iff_cached_preserved
    (env : Env) (fuel : nat) (op : Op) (s : State) :
  files_inv (db s) -> files_inv (db (snd (run env fuel op s))).
Proof.
  revert s. change (preserves inv (run env fuel op)).
  destruct op; cbn [run]; unfold forget.
  - apply inv_of_files_stable. auto with fstable.
  - apply preserves_bind; [apply cachingIsFree_inv | intros; apply preserves_ret].
  - apply stealWorkFromTheDead_inv.
  - apply preserves_bind;
      [apply executePendingDeletions_inv | intros; apply preserves_ret].
  - apply preserves_bind;
      [apply executePendingUploads_inv | intros; apply preserves_ret].
  - apply removeDeadJobs_inv.
  - apply tryToFreeUpSpace_inv.
  - apply freeUpSpace_inv.
  - apply allocateSpaceForJob_inv.
  - apply open_inv.
  - apply preserves_bind; [apply writeGlobalFile_inv | intros; apply preserves_ret].
  - apply preserves_bind; [apply readGlobalFile_inv | intros; apply preserves_ret].
  - apply deleteLocalFile_inv.
  - apply deleteGlobalFile_inv.
  - apply commitCurrentJob_inv.
  - apply shutdown_inv.
Qed.

Lemma owner_null_iff_cached_preserved_witness :
  files_inv (db (world db_after_crash ["/tmp/w/j1/out"])) /\
  files_inv (db (snd (run env1 3 (OpWriteGlobalFile "/tmp/w/j1/out" 12 "F9")
                        (world db_after_crash ["/tmp/w/j1/out"])))) /\
  List.length (files (db (snd (run env1 3
                                 (OpWriteGlobalFile "/tmp/w/j1/out" 12 "F9")
                                 (world db_after_crash ["/tmp/w/j1/out"])))))
    = 6%nat.
Proof.
  assert (H : files_inv (db (world db_after_crash ["/tmp/w/j1/out"]))).
  { unfold files_inv, owner_null_iff_cached. cbn.
    repeat constructor; cbn; intros HH; discriminate HH. }
  split; [exact H |]. split; [| reflexivity].
  apply (owner_null_iff_cached_preserved env1 3
           (OpWriteGlobalFile "/tmp/w/j1/out" 12 "F9")
           (world db_after_crash ["/tmp/w/j1/out"]) H).
Defined.

(** ** Deleting local references *)

Lemma unlink_all_disk_only (paths : list string) (s : State) :
  exists dk,
    for_each paths os_unlink s = (Ok tt, set_disk dk s) \/
    for_each paths os_unlink s = (Raise OSError, set_disk dk s).
Proof.
  revert s. induction paths as [| p paths IH]; intros s; simpl.
  - exists (disk s). left. unfold ret. now destruct s.
  - assert (Hu : os_unlink p s =
                  if path_exists p (disk s)
                  then (Ok tt, set_disk (remove_path p (disk s)) s)
                  else (Raise OSError, s)) by reflexivity.
    destruct (path_exists p (disk s)).
    + destruct (IH (set_disk (remove_path p (disk s)) s)) as (dk & [H | H]);
        exists dk; [left | right]; unfold bind; rewrite Hu; exact H.
    + exists (disk s). right. unfold bind. rewrite Hu. now destruct s.
Qed.

Lemma filter_idem {A} (p : A -> bool) (l : list A) :
  filter p (filter p l) = filter p l.
Proof.
  induction l as [| x l IH]; simpl; [reflexivity |].
  destruct (p x) eqn:E; simpl; [rewrite E; now f_equal | exact IH].
Qed.

Lemma filter_all {A} (p : A -> bool) (l : list A) :
  (forall x, In x l -> p x = true) -> filter p l = l.
Proof.
  induction l as [| x l IH]; simpl; intros H; [reflexivity |].
  rewrite (H x (or_introl eq_refl)). f_equal. apply IH.
  intros y Hy. apply H. now right.
Qed.

Lemma filter_nil_neg {A} (p : A -> bool) (l : list A) :
  filter p l = [] -> filter (fun x => negb (p x)) l = l.
Proof.
  intros H. apply filter_all. intros x Hx.
  destruct (p x) eqn:E; [| reflexivity].
  assert (Hin : In x (filter p l)) by (apply filter_In; now split).
  rewrite H in Hin. contradiction.
Qed.

Lemma set_refs_same (s : State) : set_db (set_refs (refs (db s)) (db s)) s = s.
Proof. destruct s as [[? ? ? ?] ? ? ?]; reflexivity. Qed.

(** The two ways the reference-removal step can end. *)
Lemma deleteLocalFile_references_cases (env : Env) (fid : string) (s : State) :
  exists dk,
    deleteLocalFile_references env fid s =
      (Ok tt,
       set_db (set_refs (filter (fun r => negb (own_ref env fid r))
                                (refs (db s))) (db s)) (set_disk dk s))
    \/ deleteLocalFile_references env fid s = (Raise OSError, set_disk dk s).
Proof.
  unfold deleteLocalFile_references.
  erewrite bind_ok by reflexivity.
  destruct (unlink_all_disk_only
              (map r_path (filter (own_ref env fid) (refs (db s)))) s)
    as (dk & [Hun | Hun]);
    exists dk; unfold bind; rewrite Hun; [left | right]; reflexivity.
Qed.

Lemma deleteLocalFile_references_none (env : Env) (fid : string) (s : State) :
  filter (own_ref env fid) (refs (db s)) = [] ->
  deleteLocalFile_references env fid s = (Ok tt, s).
Proof.
  intros H0. unfold deleteLocalFile_references.
  erewrite bind_ok by reflexivity.
  rewrite H0. cbn [map for_each]. erewrite bind_ok by reflexivity.
  unfold delete_refs, modify. rewrite (filter_nil_neg _ _ H0).
  now rewrite set_refs_same.
Qed.

(** C10, against the claim as stated: at the first job of a fresh cache
    the current job holds no reference to the file, yet the call raises:
    it goes on to [_freeUpSpace], whose test meets [None]. *)
Lemma deleteLocalFile_without_reference_raises :
  filter (own_ref env0 "F4") (refs db_first_job) = [] /\
  deleteLocalFile env0 3 "F4" (world db_first_job []) =
    (Raise TypeError, world db_first_job []).
Proof. split; reflexivity. Qed.

(** C10, amended: the reference-removal step of [deleteLocalFile] leaves
    every [files] row, every [jobs] row and every property as it was,
    keeps every reference row that belongs to another job or to another
    file, and adds none.  When the current job holds no reference to the
    file, the step removes nothing and raises nothing, and the call comes
    down to [_freeUpSpace]. *)
Theorem deleteLocalFile_frame
    (env : Env) (fuel : nat) (fileStoreID : string) (s : State) :
  let s' := snd (deleteLocalFile_references env fileStoreID s) in
  files (db s') = files (db s) /\
  jobs (db s') = jobs (db s) /\
  properties (db s') = properties (db s) /\
  filter (fun r => negb (own_ref env fileStoreID r)) (refs (db s')) =
    filter (fun r => negb (own_ref env fileStoreID r)) (refs (db s)) /\
  (forall r, In r (refs (db s')) -> In r (refs (db s))) /\
  (filter (own_ref env fileStoreID) (refs (db s)) = [] ->
   deleteLocalFile_references env fileStoreID s = (Ok tt, s) /\
   deleteLocalFile env fuel fileStoreID s = _freeUpSpace env fuel s).
Proof.
  cbv zeta.
  assert (Hnone : filter (own_ref env fileStoreID) (refs (db s)) = [] ->
            deleteLocalFile_references env fileStoreID s = (Ok tt, s) /\
            deleteLocalFile env fuel fileStoreID s = _freeUpSpace env fuel s).
  { intros H0. split; [now apply deleteLocalFile_references_none |].
    unfold deleteLocalFile.
    now rewrite (bind_ok _ _ _ _ _ (deleteLocalFile_references_none _ _ _ H0)). }
  destruct (deleteLocalFile_references_cases env fileStoreID s)
    as (dk & [H | H]); rewrite H; cbn.
  - split; [reflexivity |]. split; [reflexivity |]. split; [reflexivity |].
    split; [apply filter_idem |].
    split; [| rewrite <- H; exact Hnone].
    intros r Hr. now apply filter_In in Hr.
  - split; [reflexivity |]. split; [reflexivity |]. split; [reflexivity |].
    split; [reflexivity |].
    split; [auto | rewrite <- H; exact Hnone].
Qed.

Lemma deleteLocalFile_frame_witness :
  deleteLocalFile_references env0 "F4" (world db_balanced ["/cache/F4"]) =
    (Ok tt, world db_balanced ["/cache/F4"]) /\
  deleteLocalFile env0 3 "F4" (world db_balanced ["/cache/F4"]) =
    _freeUpSpace env0 3 (world db_balanced ["/cache/F4"]).
Proof.
  apply (deleteLocalFile_frame env0 3 "F4" (world db_balanced ["/cache/F4"])).
  reflexivity.
Defined.


(** ** Writing a global file when the link fails *)

Lemma update_refs_no_conflict (r : Ref) (rs : list Ref) (u : Ref -> Ref) :
  ref_conflict r rs = false ->
  map (fun q => if String.eqb (r_path q) (r_path r) then u q else q) rs = rs.
Proof.
  unfold ref_conflict. induction rs as [| q rs IH]; simpl; [reflexivity |].
  intros H. apply orb_false_iff in H as [H1 H2].
  rewrite H1. f_equal. now apply IH.
Qed.

Lemma delete_files_no_conflict (f : File) (fs : list File) :
  file_conflict f fs = false ->
  filter (fun g => negb (String.eqb (f_id g) (f_id f))) fs = fs.
Proof.
  unfold file_conflict. induction fs as [| g fs IH]; simpl; [reflexivity |].
  intros H. apply orb_false_iff in H as [H1 H2].
  apply orb_false_iff in H1 as [H1 _].
  rewrite H1. simpl. f_equal. now apply IH.
Qed.

Lemma no_conflict_fresh_id (f : File) (fs : list File) :
  file_conflict f fs = false -> forall g, In g fs -> f_id g <> f_id f.
Proof.
  intros H g Hg E.
  pose proof (existsb_false_In _ _ _ H Hg) as Hc. cbv beta in Hc.
  rewrite E, String.eqb_refl in Hc. discriminate.
Qed.

(** C5: when the local file is there, the new rows can be inserted and
    [os.link] into the cache fails, [writeGlobalFile] does not raise: it
    returns the [FileID]; the reference it made for the local path is now
    [mutable]; the [files] row it inserted is gone, so the table is as
    before and holds no row for the new ID; and the JobStore was asked for
    the ID and then, synchronously, for [updateFile] from the local path.
    The disk is unchanged. *)
Theorem writeGlobalFile_link_failure
    (env : Env) (absLocalFileName : string) (fileSize : Z) (fileID : string)
    (s : State) :
  path_exists absLocalFileName (disk s) = true ->
  file_conflict (mkFile fileID (getCachedPath env fileID) fileSize uploading
                        (Some (pid env))) (files (db s)) = false ->
  ref_conflict (mkRef absLocalFileName fileID (jobStoreID env) immutable)
               (refs (db s)) = false ->
  fst (os_link env absLocalFileName (getCachedPath env fileID) s) = Raise OSError ->
  exists s',
    writeGlobalFile env absLocalFileName fileSize fileID s =
      (Ok (fileID, fileSize), s') /\
    refs (db s') =
      refs (db s) ++ [mkRef absLocalFileName fileID (jobStoreID env) mutable] /\
    files (db s') = files (db s) /\
    (forall f, In f (files (db s')) -> f_id f <> fileID) /\
    jobStore s' =
      jobStore s ++ [JS_getEmptyFileStoreID fileID;
                     JS_updateFile fileID absLocalFileName] /\
    disk s' = disk s.
Proof.
  intros Hstat Hfile Href Hlink.
  assert (Hcond : canLink env absLocalFileName (getCachedPath env fileID)
                  && path_exists absLocalFileName (disk s)
                  && negb (path_exists (getCachedPath env fileID) (disk s))
                  = false).
  { unfold os_link in Hlink.
    destruct (_ && _ && _); [discriminate Hlink | reflexivity]. }
  eexists. split.
  - unfold writeGlobalFile.
    erewrite bind_ok by reflexivity. rewrite Hstat. cbn [negb].
    erewrite bind_ok by reflexivity.
    erewrite bind_ok
      by (unfold insert_file; cbn [db files]; rewrite Hfile; reflexivity).
    erewrite bind_ok
      by (unfold insert_ref; cbn [db refs set_db set_refs set_files];
          rewrite Href; reflexivity).
    erewrite bind_ok; [reflexivity |].
    unfold except_OSError, os_link. cbn [disk set_db]. rewrite Hcond.
    reflexivity.
  - pose proof (update_refs_no_conflict _ _ (set_ref_state mutable) Href)
      as Hur.
    pose proof (delete_files_no_conflict _ _ Hfile) as Hdf.
    cbn in Hur, Hdf |- *. rewrite map_app, filter_app, Hur, Hdf.
    cbn. rewrite !String.eqb_refl. cbn. rewrite app_nil_r.
    split; [reflexivity |]. split; [reflexivity |].
    split; [exact (no_conflict_fresh_id _ _ Hfile) |].
    split; [now rewrite <- app_assoc | reflexivity].
Qed.

Lemma writeGlobalFile_link_failure_witness :
  exists s',
    writeGlobalFile env0 "/tmp/w/j1/out" 12 "F9"
      (world db_balanced ["/tmp/w/j1/out"]) = (Ok ("F9", 12), s') /\
    refs (db s') =
      refs db_balanced ++ [mkRef "/tmp/w/j1/out" "F9" "J1" mutable] /\
    files (db s') = files db_balanced.
Proof.
  destruct (writeGlobalFile_link_failure env0 "/tmp/w/j1/out" 12 "F9"
              (world db_balanced ["/tmp/w/j1/out"])
              eq_refl eq_refl eq_refl eq_refl)
    as (s' & H1 & H2 & H3 & _).
  exists s'. split; [exact H1 | split; [exact H2 | exact H3]].
Defined.


(** ** Deleting a global file *)

(** Past its local delete, [deleteGlobalFile] stops at the SELECT of line
    965: it neither reports a file in use nor marks a row for deletion. *)
Lemma deleteGlobalFile_stops
    (env : Env) (fuel : nat) (fileStoreID : string) (s : State) :
  match deleteLocalFile env fuel fileStoreID s with
  | (Ok _, s1) =>
      deleteGlobalFile env fuel fileStoreID s = (Raise ProgrammingError, s1)
  | (Raise e, s1) =>
      deleteGlobalFile env fuel fileStoreID s = (Raise e, s1)
  | (OutOfFuel, s1) =>
      deleteGlobalFile env fuel fileStoreID s = (OutOfFuel, s1)
  end.
Proof.
  unfold deleteGlobalFile, bind.
  destruct (deleteLocalFile env fuel fileStoreID s) as [[[] | e |] s1];
    reflexivity.
Qed.

(** C6, on a file only the current job refers to, and on a file another
    job refers to as well.  In both worlds the local delete returns
    (the job's reference and its file are gone), then the SELECT of line
    965 is given two values for its one placeholder: [ProgrammingError].
    In the first world the claim has the row set to [deleting] and the ID
    queued; the row is still [cached] and nothing is queued.  In the second
    the claim has the in-use error raised; the error is another one. *)
Lemma deleteGlobalFile_neither_deletes_nor_reports :
  (* no other job refers to F5 *)
  deleteGlobalFile env0 3 "F5" (world db_two_files disk_two_files) =
    (Raise ProgrammingError,
     world (mkDB (files db_two_files)
                 [mkRef "/tmp/w/j2/f6" "F6" "J2" immutable]
                 (jobs db_two_files) (properties db_two_files))
           ["/cache/F5"; "/cache/F6"; "/tmp/w/j2/f6"]) /\
  getFileReaderCount "F5"
    (db (snd (deleteGlobalFile env0 3 "F5"
                (world db_two_files disk_two_files)))) = 0 /\
  fileIsCached "F5"
    (db (snd (deleteGlobalFile env0 3 "F5"
                (world db_two_files disk_two_files)))) = true /\
  filesToDelete (snd (deleteGlobalFile env0 3 "F5"
                        (world db_two_files disk_two_files))) = [] /\
  (* job J2 refers to F5 too *)
  deleteGlobalFile env0 3 "F5" (world db_shared disk_shared) =
    (Raise ProgrammingError,
     world (mkDB (files db_shared)
                 [mkRef "/tmp/w/j2/f5" "F5" "J2" immutable]
                 (jobs db_shared) (properties db_shared))
           ["/cache/F5"; "/tmp/w/j2/f5"]) /\
  referenced_elsewhere env0 "F5"
    (snd (deleteGlobalFile env0 3 "F5" (world db_shared disk_shared))).
Proof.
  repeat split.
  exists (mkRef "/tmp/w/j2/f5" "F5" "J2" immutable).
  split; [now left |]. split; [reflexivity | discriminate].
Qed.

(** ** Further properties of the space accounting *)

Lemma property_update (name : string) (v : Z) (ps : list (string * Z)) (k : string) :
  property k (update_property name v ps) =
  if String.eqb k name
  then match property k ps with Some _ => Some v | None => None end
  else property k ps.
Proof.
  induction ps as [| [k' w] ps IH]; simpl.
  - now destruct (String.eqb k name).
  - destruct (String.eqb k' name) eqn:E1; simpl.
    + apply String.eqb_eq in E1. subst k'.
      rewrite (String.eqb_sym k name).
      destruct (String.eqb name k) eqn:E2; [reflexivity |].
      rewrite IH, (String.eqb_sym k name), E2. reflexivity.
    + destruct (String.eqb k' k) eqn:E3; [| exact IH].
      apply String.eqb_eq in E3. subst k'. now rewrite E1.
Qed.

(** X1: [adjustCacheLimit] followed by [getCacheLimit] gives the new limit
    back when a limit was set, and still [None] when the [maxSpace] row is
    missing (the UPDATE inserts nothing); every other property and the
    three other tables are as before.  That is for a limit SQLite can
    store; beyond 64 bits the call raises [OverflowError] and the limit
    stays what it was. *)
Theorem adjustCacheLimit_getCacheLimit (newTotalBytes : Z) (s : State) :
  let s' := snd (adjustCacheLimit newTotalBytes s) in
  if int64 newTotalBytes then
    fst (adjustCacheLimit newTotalBytes s) = Ok tt /\
    getCacheLimit (db s') =
      match getCacheLimit (db s) with
      | Some _ => Some newTotalBytes
      | None => None
      end /\
    (forall k, String.eqb k "maxSpace" = false ->
               property k (properties (db s')) = property k (properties (db s))) /\
    files (db s') = files (db s) /\ refs (db s') = refs (db s) /\
    jobs (db s') = jobs (db s)
  else
    adjustCacheLimit newTotalBytes s = (Raise OverflowError, s).
Proof.
  cbv zeta. unfold adjustCacheLimit.
  destruct (int64 newTotalBytes); [| reflexivity].
  unfold modify, getCacheLimit. cbn.
  split; [reflexivity |]. split; [| split; [| repeat split]].
  - rewrite property_update. reflexivity.
  - intros k Hk. rewrite property_update, Hk. reflexivity.
Qed.

Lemma immutable_ref_sizes_nil (d : DB) :
  (forall r, In r (refs d) -> r_state r <> immutable) ->
  immutable_ref_sizes d = [].
Proof.
  intros H. unfold immutable_ref_sizes.
  rewrite filter_none; [reflexivity |].
  intros r Hr. specialize (H r Hr). destruct (r_state r); try reflexivity.
  congruence.
Qed.

(** X2: when no reference is [immutable], as on a node whose jobs only
    hold mutable copies, [getCacheExtraJobSpace] and [getCacheAvailable]
    yield NULL whatever is in [files] and [jobs]: the SUM over the joined
    immutable references ranges over no row. *)
Theorem accounting_null_without_immutable_refs (d : DB) :
  (forall r, In r (refs d) -> r_state r <> immutable) ->
  getCacheExtraJobSpace d = None /\ getCacheAvailable d = None.
Proof.
  intros H. unfold getCacheExtraJobSpace, getCacheAvailable.
  rewrite (immutable_ref_sizes_nil d H). cbn.
  split.
  - destruct (sql_sum (map j_disk (jobs d))); reflexivity.
  - destruct (sql_sub _ (sql_sum (map f_size (files d)))),
             (sql_sum (map j_disk (jobs d))); reflexivity.
Qed.

Lemma accounting_null_without_immutable_refs_witness :
  getCacheUsed db_only_mutable = Some 50 /\
  getCacheAvailable db_only_mutable = None.
Proof.
  split; [reflexivity |].
  apply (accounting_null_without_immutable_refs db_only_mutable).
  intros r [<- | []]. discriminate.
Defined.

Lemma total_app (l l' : list Z) : total (l ++ l') = total l + total l'.
Proof.
  unfold total. induction l as [| x l IH]; simpl; [reflexivity |].
  rewrite IH. lia.
Qed.

Lemma sql_sum_some (l : list Z) (a : Z) : sql_sum l = Some a -> a = total l.
Proof. destruct l; [discriminate |]. intros H. now inversion H. Qed.

(** X3: an immutable reference gives its file's size back to the cache.
    Where [getCacheAvailable] is a number, adding an immutable reference
    to a file that has one row raises it by exactly that file's size, as
    long as the query computes within 64 bits before and after. *)
Theorem immutable_reference_credit (d : DB) (r : Ref) (f : File) (a : Z) :
  query_fits d ->
  query_fits (set_refs (refs d ++ [r]) d) ->
  getCacheAvailable d = Some a ->
  r_state r = immutable ->
  filter (fun g => String.eqb (f_id g) (r_file_id r)) (files d) = [f] ->
  getCacheAvailable (set_refs (refs d ++ [r]) d) = Some (a + f_size f).
Proof.
  intros _ _ Ha Hst Hrow. unfold getCacheAvailable in *. cbn [files jobs properties set_refs].
  assert (Hsz : immutable_ref_sizes (set_refs (refs d ++ [r]) d)
                = immutable_ref_sizes d ++ [f_size f]).
  { unfold immutable_ref_sizes. cbn [refs files set_refs].
    rewrite filter_app, flat_map_app. cbn [filter]. rewrite Hst. cbn.
    rewrite Hrow. reflexivity. }
  rewrite Hsz.
  destruct (property "maxSpace" (properties d)) as [m |]; [| discriminate Ha].
  destruct (sql_sum (map f_size (files d))) as [u |]; [| discriminate Ha].
  destruct (sql_sum (map j_disk (jobs d))) as [j |]; [| discriminate Ha].
  destruct (sql_sum (immutable_ref_sizes d)) as [i |] eqn:Ei;
    [| discriminate Ha].
  apply sql_sum_some in Ei. cbn in Ha. inversion Ha; subst a.
  rewrite sql_sum_total by (destruct (immutable_ref_sizes d); discriminate).
  rewrite total_app.
  replace (total [f_size f]) with (f_size f) by (unfold total; cbn; lia).
  subst i. unfold sql_sub. f_equal. lia.
Qed.

Lemma immutable_reference_credit_witness :
  getCacheAvailable
    (set_refs (refs db_balanced ++ [mkRef "/tmp/w/j3/f4" "F4" "J3" immutable])
              db_balanced) = Some (0 + 500).
Proof.
  apply (immutable_reference_credit db_balanced
           (mkRef "/tmp/w/j3/f4" "F4" "J3" immutable)
           (mkFile "F4" "/cache/F4" 500 cached None) 0);
    try reflexivity;
    unfold query_fits, sum_fits; cbn;
    repeat split; try lia; repeat constructor; lia.
Defined.


(** ** Pending uploads *)

Lemma set_files_same (s : State) : set_db (set_files (files (db s)) (db s)) s = s.
Proof. destruct s as [[? ? ? ?] ? ? ?]; reflexivity. Qed.

Lemma update_files_maps (c : File -> bool) (u : File -> File) :
  maps_files (update_files c u) (fun f => if c f then u f else f).
Proof. intros s. reflexivity. Qed.

Lemma maps_files_for_each {A} (l : list A) (body : A -> M unit)
    (g : A -> File -> File) :
  (forall x, maps_files (body x) (g x)) ->
  maps_files (for_each l body) (fun f => fold_left (fun f x => g x f) l f).
Proof.
  intros Hbody. induction l as [| x l IH]; intros s; simpl.
  - unfold ret. now rewrite map_id, set_files_same.
  - unfold bind. rewrite Hbody, IH. cbn. now rewrite map_map.
Qed.

Lemma uploads_fold (rows : list File) (acc : list string) (s : State) :
  for_fold rows acc
    (fun acc row =>
       js_call (JS_updateFile (f_id row) (f_path row)) ;;
       ret (acc ++ [f_id row])) s =
  (Ok (acc ++ map f_id rows),
   mkState (db s) (disk s)
           (jobStore s ++ map (fun f => JS_updateFile (f_id f) (f_path f)) rows)
           (filesToDelete s)).
Proof.
  revert acc s. induction rows as [| row rows IH]; intros acc s; simpl.
  - unfold ret. rewrite !app_nil_r. now destruct s.
  - erewrite bind_ok by reflexivity. rewrite IH. cbn.
    now rewrite <- !app_assoc.
Qed.

Lemma fold_mark_cached (ids : list string) (f : File) :
  fold_left (fun f id => if String.eqb (f_id f) id
                         then set_owner_state None cached f else f) ids f =
  if existsb (String.eqb (f_id f)) ids then set_owner_state None cached f else f.
Proof.
  revert f. induction ids as [| id ids IH]; intros f; simpl; [reflexivity |].
  rewrite IH. destruct (String.eqb (f_id f) id); simpl; [| reflexivity].
  now destruct (existsb _ ids).
Qed.

Lemma existsb_eqb_In (x : string) (l : list string) :
  existsb (String.eqb x) l = true <-> In x l.
Proof.
  rewrite existsb_exists. split.
  - intros (y & Hy & E). apply String.eqb_eq in E. now subst.
  - intros H. exists x. split; [exact H | apply String.eqb_refl].
Qed.

(** [_executePendingUploads], run. *)
Lemma executePendingUploads_run (env : Env) (s : State) :
  _executePendingUploads env s =
    (Ok (Some (Z.of_nat (List.length (our_uploads env (db s))))),
     mkState
       (mkDB (map (fun f => if existsb (String.eqb (f_id f))
                                       (map f_id (our_uploads env (db s)))
                            then set_owner_state None cached f else f)
                  (files (db s)))
             (refs (db s)) (jobs (db s)) (properties (db s)))
       (disk s)
       (jobStore s ++ map (fun f => JS_updateFile (f_id f) (f_path f))
                          (our_uploads env (db s)))
       (filesToDelete s)).
Proof.
  unfold _executePendingUploads.
  erewrite bind_ok by reflexivity.
  erewrite bind_ok by apply uploads_fold.
  erewrite bind_ok
    by (apply (maps_files_for_each _ _
                 (fun id f => if String.eqb (f_id f) id
                              then set_owner_state None cached f else f));
        intros id; apply update_files_maps).
  unfold ret. cbn [app]. rewrite length_map.
  unfold set_db, set_files. cbn. do 3 f_equal.
  apply map_ext. intros f. apply fold_mark_cached.
Qed.

Lemma no_uploads_left (env : Env) (fs : list File) :
  filter (fun f => FileState_eqb (f_state f) uploading
                   && sql_eq (f_owner f) (Some (pid env)))
    (map (fun f => if existsb (String.eqb (f_id f))
                      (map f_id (filter (fun f => FileState_eqb (f_state f) uploading
                                           && sql_eq (f_owner f) (Some (pid env))) fs))
                   then set_owner_state None cached f else f) fs) = [].
Proof.
  apply filter_none. intros f Hf.
  apply in_map_iff in Hf as (g & <- & Hg).
  destruct (existsb (String.eqb (f_id g)) _) eqn:E; [reflexivity |].
  destruct (FileState_eqb (f_state g) uploading
            && sql_eq (f_owner g) (Some (pid env))) eqn:Ours;
    [| reflexivity].
  assert (Hin : In (f_id g)
                  (map f_id (filter (fun f => FileState_eqb (f_state f) uploading
                                      && sql_eq (f_owner f) (Some (pid env))) fs))).
  { apply in_map. apply filter_In. now split. }
  apply existsb_eqb_In in Hin. rewrite Hin in E. discriminate.
Qed.

(** X4: [_executePendingUploads] never fails on its own: it calls
    [updateFile(id, path)] once for each of our files in state
    [uploading], in table order, sets every row carrying one of those IDs
    to [(null, cached)], and returns their number.  Afterwards no file of
    ours is [uploading]; references, jobs, properties and the disk are
    untouched. *)
Theorem executePendingUploads_uploads_all (env : Env) (s : State) :
  exists s',
    _executePendingUploads env s =
      (Ok (Some (Z.of_nat (List.length (our_uploads env (db s))))), s') /\
    jobStore s' =
      jobStore s ++ map (fun f => JS_updateFile (f_id f) (f_path f))
                        (our_uploads env (db s)) /\
    files (db s') =
      map (fun f => if existsb (String.eqb (f_id f))
                               (map f_id (our_uploads env (db s)))
                    then set_owner_state None cached f else f)
          (files (db s)) /\
    our_uploads env (db s') = [] /\
    refs (db s') = refs (db s) /\ jobs (db s') = jobs (db s) /\
    properties (db s') = properties (db s) /\ disk s' = disk s /\
    filesToDelete s' = filesToDelete s.
Proof.
  eexists. split; [apply executePendingUploads_run |].
  cbn. repeat split. apply no_uploads_left.
Qed.


(** ** Freeing space and registering a job *)






(** ** Writing a global file when the link succeeds *)

Lemma fileIsCached_iff (fileID : string) (d : DB) :
  fileIsCached fileID d = true <->
  exists f, In f (files d) /\ f_id f = fileID /\ f_state f = cached.
Proof.
  unfold fileIsCached. rewrite Z.ltb_lt. split.
  - intros H.
    destruct (filter _ (files d)) as [| f l] eqn:E; [cbn in H; lia |].
    assert (Hin : In f (f :: l)) by now left.
    rewrite <- E in Hin. apply filter_In in Hin as [Hin Hc].
    apply andb_true_iff in Hc as [Hi Hs]. apply String.eqb_eq in Hi.
    exists f. repeat split; try assumption. now destruct (f_state f).
  - intros (f & Hin & Hi & Hs).
    assert (Hf : In f (filter (fun f => String.eqb (f_id f) fileID
                                 && FileState_eqb (f_state f) cached) (files d))).
    { apply filter_In. split; [exact Hin |].
      now rewrite Hi, Hs, String.eqb_refl. }
    destruct (filter _ (files d)); [contradiction | cbn; lia].
Qed.

(** The deferred-upload path of [writeGlobalFile]. *)
Lemma writeGlobalFile_linked
    (env : Env) (absLocalFileName : string) (fileSize : Z) (fileID : string)
    (s : State) :
  path_exists absLocalFileName (disk s) = true ->
  file_conflict (mkFile fileID (getCachedPath env fileID) fileSize uploading
                        (Some (pid env))) (files (db s)) = false ->
  ref_conflict (mkRef absLocalFileName fileID (jobStoreID env) immutable)
               (refs (db s)) = false ->
  canLink env absLocalFileName (getCachedPath env fileID) = true ->
  path_exists (getCachedPath env fileID) (disk s) = false ->
  writeGlobalFile env absLocalFileName fileSize fileID s =
    (Ok (fileID, fileSize),
     mkState
       (mkDB (files (db s) ++ [mkFile fileID (getCachedPath env fileID) fileSize
                                      uploading (Some (pid env))])
             (refs (db s) ++ [mkRef absLocalFileName fileID (jobStoreID env)
                                    immutable])
             (jobs (db s)) (properties (db s)))
       (disk s ++ [getCachedPath env fileID])
       (jobStore s ++ [JS_getEmptyFileStoreID fileID])
       (filesToDelete s)).
Proof.
  intros Hstat Hfile Href Hcan Hfree.
  unfold writeGlobalFile.
  erewrite bind_ok by reflexivity. rewrite Hstat. cbn [negb].
  erewrite bind_ok by reflexivity.
  erewrite bind_ok
    by (unfold insert_file; cbn [db files]; rewrite Hfile; reflexivity).
  erewrite bind_ok
    by (unfold insert_ref; cbn [db refs set_db set_refs set_files];
        rewrite Href; reflexivity).
  erewrite bind_ok.
  - reflexivity.
  - unfold except_OSError, os_link. cbn [disk set_db].
    rewrite Hcan, Hstat, Hfree. cbn [andb negb].
    unfold add_path. rewrite Hfree. reflexivity.
Qed.

(** X10: when [os.link] into the cache succeeds, [writeGlobalFile]
    returns the [FileID] and only registers the file: a row
    [(fileID, cachePath, size, uploading, self)], an [immutable] reference
    for the local path, and the cached copy on disk.  The JobStore was
    asked for the ID and nothing else: no upload has happened, and
    [fileIsCached] still answers no. *)
Theorem writeGlobalFile_defers_upload
    (env : Env) (absLocalFileName : string) (fileSize : Z) (fileID : string)
    (s : State) :
  path_exists absLocalFileName (disk s) = true ->
  file_conflict (mkFile fileID (getCachedPath env fileID) fileSize uploading
                        (Some (pid env))) (files (db s)) = false ->
  ref_conflict (mkRef absLocalFileName fileID (jobStoreID env) immutable)
               (refs (db s)) = false ->
  canLink env absLocalFileName (getCachedPath env fileID) = true ->
  path_exists (getCachedPath env fileID) (disk s) = false ->
  exists s',
    writeGlobalFile env absLocalFileName fileSize fileID s =
      (Ok (fileID, fileSize), s') /\
    files (db s') =
      files (db s) ++ [mkFile fileID (getCachedPath env fileID) fileSize
                              uploading (Some (pid env))] /\
    refs (db s') =
      refs (db s) ++ [mkRef absLocalFileName fileID (jobStoreID env) immutable] /\
    disk s' = disk s ++ [getCachedPath env fileID] /\
    jobStore s' = jobStore s ++ [JS_getEmptyFileStoreID fileID] /\
    fileIsCached fileID (db s') = false.
Proof.
  intros Hstat Hfile Href Hcan Hfree.
  eexists. split.
  - now apply writeGlobalFile_linked.
  - cbn. repeat split.
    apply not_true_is_false. intros Hc.
    apply fileIsCached_iff in Hc as (f & Hin & Hi & Hs). cbn in Hin.
    apply in_app_or in Hin as [Hin | [<- | []]].
    + now apply (no_conflict_fresh_id _ _ Hfile f Hin).
    + discriminate Hs.
Qed.

Lemma writeGlobalFile_defers_upload_witness :
  exists s',
    writeGlobalFile env1 "/tmp/w/j1/out" 12 "F9"
      (world db_balanced ["/tmp/w/j1/out"]) = (Ok ("F9", 12), s') /\
    disk s' = ["/tmp/w/j1/out"; "/cache/F9"].
Proof.
  destruct (writeGlobalFile_defers_upload env1 "/tmp/w/j1/out" 12 "F9"
              (world db_balanced ["/tmp/w/j1/out"])
              eq_refl eq_refl eq_refl eq_refl eq_refl)
    as (s' & H1 & _ & _ & H2 & _).
  exists s'. split; [exact H1 | exact H2].
Defined.

(** X11: write, then upload.  After a [writeGlobalFile] whose link
    succeeded, the next [_executePendingUploads] of the same worker (as
    [commitCurrentJob] runs it) sends the file to the JobStore from its
    cached copy and turns its row into [(null, cached)]: from then on
    [fileIsCached] answers yes, and the writer's [immutable] reference is
    still there. *)
Theorem writeGlobalFile_then_upload
    (env : Env) (absLocalFileName : string) (fileSize : Z) (fileID : string)
    (s : State) :
  path_exists absLocalFileName (disk s) = true ->
  file_conflict (mkFile fileID (getCachedPath env fileID) fileSize uploading
                        (Some (pid env))) (files (db s)) = false ->
  ref_conflict (mkRef absLocalFileName fileID (jobStoreID env) immutable)
               (refs (db s)) = false ->
  canLink env absLocalFileName (getCachedPath env fileID) = true ->
  path_exists (getCachedPath env fileID) (disk s) = false ->
  exists s1 s2 n,
    writeGlobalFile env absLocalFileName fileSize fileID s =
      (Ok (fileID, fileSize), s1) /\
    _executePendingUploads env s1 = (Ok (Some n), s2) /\
    1 <= n /\
    In (JS_updateFile fileID (getCachedPath env fileID)) (jobStore s2) /\
    In (mkFile fileID (getCachedPath env fileID) fileSize cached None)
       (files (db s2)) /\
    fileIsCached fileID (db s2) = true /\
    In (mkRef absLocalFileName fileID (jobStoreID env) immutable)
       (refs (db s2)).
Proof.
  intros Hstat Hfile Href Hcan Hfree.
  pose proof (writeGlobalFile_linked env absLocalFileName fileSize fileID s
                Hstat Hfile Href Hcan Hfree) as Hw.
  set (new := mkFile fileID (getCachedPath env fileID) fileSize uploading
                     (Some (pid env))) in *.
  match type of Hw with _ = (_, ?st) => set (s1 := st) in * end.
  assert (Hours : In new (our_uploads env (db s1))).
  { unfold our_uploads. apply filter_In. split.
    - cbn. apply in_or_app. right. now left.
    - cbn. now rewrite Z.eqb_refl. }
  assert (Hrow : In (mkFile fileID (getCachedPath env fileID) fileSize cached None)
                    (map (fun f => if existsb (String.eqb (f_id f))
                                        (map f_id (our_uploads env (db s1)))
                                   then set_owner_state None cached f else f)
                         (files (db s1)))).
  { apply in_map_iff. exists new. split.
    - assert (Hid : existsb (String.eqb (f_id new))
                      (map f_id (our_uploads env (db s1))) = true)
        by (apply existsb_eqb_In; now apply in_map).
      rewrite Hid. reflexivity.
    - cbn. apply in_or_app. right. now left. }
  exists s1. eexists. eexists.
  split; [exact Hw |].
  split; [apply executePendingUploads_run |].
  split; [| split; [| split; [| split]]].
  - destruct (our_uploads env (db s1)); [contradiction | cbn; lia].
  - cbn [jobStore]. apply in_or_app. right.
    apply in_map_iff. exists new. split; [reflexivity | exact Hours].
  - exact Hrow.
  - apply fileIsCached_iff. eexists. split; [exact Hrow |]. now split.
  - cbn. apply in_or_app. right. now left.
Qed.

Lemma writeGlobalFile_then_upload_witness :
  exists s1 s2 n,
    writeGlobalFile env1 "/tmp/w/j1/out" 12 "F9"
      (world db_balanced ["/tmp/w/j1/out"]) = (Ok ("F9", 12), s1) /\
    _executePendingUploads env1 s1 = (Ok (Some n), s2) /\
    fileIsCached "F9" (db s2) = true.
Proof.
  destruct (writeGlobalFile_then_upload env1 "/tmp/w/j1/out" 12 "F9"
              (world db_balanced ["/tmp/w/j1/out"])
              eq_refl eq_refl eq_refl eq_refl eq_refl)
    as (s1 & s2 & n & H1 & H2 & _ & _ & _ & H3 & _).
  exists s1, s2, n. repeat split; assumption.
Defined.

(** ** Errors of [writeGlobalFile] and [deleteLocalFile] *)

(** X12: [writeGlobalFile] on a local path that already carries a
    reference (the same file written twice, say) raises [IntegrityError]
    on the second INSERT; by then the JobStore has handed out an ID and the
    [files] row for it is in the table, in state [uploading], with nothing
    behind it in the cache. *)
Theorem writeGlobalFile_same_path_twice
    (env : Env) (absLocalFileName : string) (fileSize : Z) (fileID : string)
    (s : State) :
  path_exists absLocalFileName (disk s) = true ->
  file_conflict (mkFile fileID (getCachedPath env fileID) fileSize uploading
                        (Some (pid env))) (files (db s)) = false ->
  ref_conflict (mkRef absLocalFileName fileID (jobStoreID env) immutable)
               (refs (db s)) = true ->
  exists s',
    writeGlobalFile env absLocalFileName fileSize fileID s =
      (Raise IntegrityError, s') /\
    files (db s') =
      files (db s) ++ [mkFile fileID (getCachedPath env fileID) fileSize
                              uploading (Some (pid env))] /\
    refs (db s') = refs (db s) /\ disk s' = disk s /\
    jobStore s' = jobStore s ++ [JS_getEmptyFileStoreID fileID].
Proof.
  intros Hstat Hfile Href.
  eexists. split.
  - unfold writeGlobalFile.
    erewrite bind_ok by reflexivity. rewrite Hstat. cbn [negb].
    erewrite bind_ok by reflexivity.
    erewrite bind_ok
      by (unfold insert_file; cbn [db files]; rewrite Hfile; reflexivity).
    unfold bind at 1. unfold insert_ref.
    cbn [db refs set_db set_refs set_files]. rewrite Href. reflexivity.
  - cbn. repeat split.
Qed.

Lemma writeGlobalFile_same_path_twice_witness :
  exists s',
    writeGlobalFile env1 "/tmp/w/j1/f5" 12 "F9"
      (world db_balanced ["/tmp/w/j1/f5"]) = (Raise IntegrityError, s') /\
    refs (db s') = refs db_balanced.
Proof.
  destruct (writeGlobalFile_same_path_twice env1 "/tmp/w/j1/f5" 12 "F9"
              (world db_balanced ["/tmp/w/j1/f5"]) eq_refl eq_refl eq_refl)
    as (s' & H1 & _ & H2 & _).
  exists s'. split; [exact H1 | exact H2].
Defined.

Lemma path_exists_In (p : string) (dk : list string) :
  path_exists p dk = true <-> In p dk.
Proof. apply existsb_eqb_In. Qed.

Lemma In_remove_path (p q : string) (dk : list string) :
  In q (remove_path p dk) <-> In q dk /\ p <> q.
Proof.
  unfold remove_path. rewrite filter_In. split; intros [H1 H2]; split; auto.
  - intros E. subst. rewrite String.eqb_refl in H2. discriminate.
  - apply negb_true_iff. now apply String.eqb_neq.
Qed.

Lemma unlink_all_missing (paths : list string) (p : string) : forall s,
  In p paths -> path_exists p (disk s) = false ->
  exists dk,
    for_each paths os_unlink s = (Raise OSError, set_disk dk s) /\
    forall q, In q dk -> In q (disk s).
Proof.
  induction paths as [| x paths IH]; intros s Hin Hmiss; [contradiction |].
  simpl. unfold bind.
  assert (Hu : os_unlink x s =
                if path_exists x (disk s)
                then (Ok tt, set_disk (remove_path x (disk s)) s)
                else (Raise OSError, s)) by reflexivity.
  rewrite Hu. destruct (path_exists x (disk s)) eqn:Ex.
  - destruct Hin as [-> | Hin]; [congruence |].
    destruct (IH (set_disk (remove_path x (disk s)) s) Hin) as (dk & -> & Hdk).
    + cbn. apply not_true_is_false. intros Hp.
      apply path_exists_In, In_remove_path in Hp as [Hp _].
      apply path_exists_In in Hp. congruence.
    + exists dk. split; [reflexivity |].
      intros q Hq. apply Hdk in Hq. cbn in Hq.
      now apply In_remove_path in Hq.
  - exists (disk s). split; [now destruct s | auto].
Qed.

(** X13: if one of the current job's reference files for the file ID is
    no longer on disk (the user removed it by hand), [deleteLocalFile]
    raises [OSError] before its DELETE: no reference row is dropped, the
    database is left as it was, [_freeUpSpace] is not run, and only
    reference files visited before the missing one are gone from the
    disk. *)
Theorem deleteLocalFile_missing_reference_file
    (env : Env) (fuel : nat) (fileStoreID : string) (s : State) (r : Ref) :
  In r (refs (db s)) ->
  own_ref env fileStoreID r = true ->
  path_exists (r_path r) (disk s) = false ->
  exists dk,
    deleteLocalFile env fuel fileStoreID s = (Raise OSError, set_disk dk s) /\
    (forall q, In q dk -> In q (disk s)).
Proof.
  intros Hin Hown Hmiss.
  destruct (unlink_all_missing
              (map r_path (filter (own_ref env fileStoreID) (refs (db s))))
              (r_path r) s) as (dk & Hun & Hdk).
  - apply in_map. apply filter_In. now split.
  - exact Hmiss.
  - exists dk. split; [| exact Hdk].
    unfold deleteLocalFile, deleteLocalFile_references.
    unfold bind at 1. unfold bind at 1. unfold gets at 1.
    unfold bind at 1. now rewrite Hun.
Qed.

Lemma deleteLocalFile_missing_reference_file_witness :
  exists dk,
    deleteLocalFile env0 3 "F5" (world db_shared ["/cache/F5"]) =
      (Raise OSError, set_disk dk (world db_shared ["/cache/F5"])).
Proof.
  destruct (deleteLocalFile_missing_reference_file env0 3 "F5"
              (world db_shared ["/cache/F5"])
              (mkRef "/tmp/w/j1/f5" "F5" "J1" immutable))
    as (dk & H & _).
  - now left.
  - reflexivity.
  - reflexivity.
  - exists dk. exact H.
Defined.


(** ** A local delete that finds its files *)




(** ** Committing the job *)

(** X17: [commitCurrentJob] never commits.  It uploads every file of ours
    still [uploading] (one [updateFile] each, the rows becoming
    [(null, cached)]), then [_executePendingDeletions] stops at its SELECT:
    the call raises [OperationalError], which the handler re-raises.  The
    JobStore is never asked to update the job, to delete a job or to delete
    a file, and the delete list is left as it was. *)
Theorem commitCurrentJob_never_commits
    (env : Env) (jobsToDelete : list string) (s : State) :
  exists s',
    commitCurrentJob env jobsToDelete s = (Raise OperationalError, s') /\
    s' = snd (_executePendingUploads env s) /\
    jobStore s' =
      jobStore s
      ++ map (fun f => JS_updateFile (f_id f) (f_path f)) (our_uploads env (db s)) /\
    our_uploads env (db s') = [] /\
    refs (db s') = refs (db s) /\ jobs (db s') = jobs (db s) /\
    disk s' = disk s /\ filesToDelete s' = filesToDelete s.
Proof.
  eexists. split; [| split].
  - unfold commitCurrentJob.
    rewrite (bind_ok _ _ _ _ _ (executePendingUploads_run env s)).
    reflexivity.
  - now rewrite executePendingUploads_run.
  - cbn. repeat split. apply no_uploads_left.
Qed.

(** ** Reading a global file *)

(** X14: the outcomes of [readGlobalFile].  A destination given by the
    caller that exists already raises [RuntimeError].  Otherwise, with
    [cache] set (the default) the call raises [NameError] at its next
    statement, and without it the JobStore reads the file straight to the
    destination, which is returned.  In no case is a table of the database
    written; with [cache] set nothing at all is changed: no file is ever
    read through the cache. *)
Theorem readGlobalFile_outcomes
    (fileStoreID : string) (userPath : option string) (tempName : string)
    (cache mutable_ symlink : bool) (s : State) :
  let localFilePath := match userPath with Some p => p | None => tempName end in
  let call := readGlobalFile fileStoreID userPath tempName cache mutable_ symlink in
  if match userPath with
     | Some p => path_exists p (disk s)
     | None => false
     end
  then call s = (Raise (RuntimeError "exists. Cannot Overwrite."), s)
  else if cache
  then call s = (Raise NameError, s)
  else call s =
       (Ok localFilePath,
        mkState (db s) (add_path localFilePath (disk s))
                (jobStore s ++ [JS_readFile fileStoreID localFilePath])
                (filesToDelete s)).
Proof.
  cbv zeta. unfold readGlobalFile.
  destruct userPath as [p |].
  - unfold bind, gets. cbn beta.
    destruct (path_exists p (disk s)); [reflexivity |].
    destruct cache; reflexivity.
  - destruct cache; reflexivity.
Qed.

(** ** The rows an operation writes *)

Lemma preserves_stops {A} (P : State -> Prop) (m : M A) (e : exn) :
  (forall s, m s = (Raise e, s)) -> preserves P m.
Proof. intros Hm s H. now rewrite Hm. Qed.

Section WrittenRows.

Variable env : Env.
Variable fuel : nat.
Variable Qr : Ref -> Prop.
Variable Qj : Job -> Prop.
Hypothesis Qr_state : forall r st, Qr r -> Qr (set_ref_state st r).
Hypothesis Qr_own : forall r, r_job_id r = jobStoreID env -> Qr r.
Hypothesis Qj_own : forall n, Qj (own_job_row env n).

Lemma insert_ref_rows (r : Ref) :
  r_job_id r = jobStoreID env -> preserves (rows_in Qr Qj) (insert_ref r).
Proof.
  intros Hq st [Hr Hj]. unfold insert_ref.
  destruct (ref_conflict r (refs (db st))); cbn; [now split |].
  split; [| exact Hj].
  intros q Hin. apply in_app_or in Hin as [Hin | [<- | []]]; auto.
Qed.

Lemma update_refs_rows c st' :
  preserves (rows_in Qr Qj) (update_refs c (set_ref_state st')).
Proof.
  intros st [Hr Hj]. cbn. split; [| exact Hj].
  intros q Hin. apply in_map_iff in Hin as (q0 & <- & Hq0).
  destruct (c q0); auto.
Qed.

Lemma delete_refs_rows c : preserves (rows_in Qr Qj) (delete_refs c).
Proof.
  intros st [Hr Hj]. cbn. split; [| exact Hj].
  intros q Hin. apply filter_In in Hin as [Hin _]. now apply Hr.
Qed.

Lemma insert_job_rows (n : Z) :
  preserves (rows_in Qr Qj) (insert_job (own_job_row env n)).
Proof.
  intros st [Hr Hj]. unfold insert_job.
  destruct (negb (int64 _)); cbn; [now split |].
  destruct (existsb _ (jobs (db st))); cbn; [now split |].
  split; [exact Hr |].
  intros k Hin. apply in_app_or in Hin as [Hin | [<- | []]]; auto.
Qed.

(** Statements that write neither [refs] nor [jobs]. *)
Ltac rows_untouched :=
  let st := fresh "st" in
  intros st [? ?];
  cbv beta delta
    [update_files delete_files insert_file os_unlink os_rmtree os_rmdir
     mkdtemp os_link js_call filesToDelete_add adjustCacheLimit modify raise];
  repeat match goal with
         | |- context [if ?b then _ else _] => destruct b
         end;
  cbn; split; assumption.

Ltac rows_step :=
  first
    [ pres_step
    | apply insert_ref_rows; reflexivity
    | apply update_refs_rows
    | apply delete_refs_rows
    | apply insert_job_rows
    | solve [rows_untouched] ].

Ltac rows_auto := repeat rows_step.

Lemma freeUpSpace_rows : preserves (rows_in Qr Qj) (_freeUpSpace env fuel).
Proof.
  pose proof (preserves_stops (rows_in Qr Qj) _ _
                (tryToFreeUpSpace_stops env fuel)) as Htry.
  assert (Hloop : forall n, preserves (rows_in Qr Qj) (freeUpSpace_loop env fuel n)).
  { induction n as [| n IH]; cbn [freeUpSpace_loop]; rows_auto. }
  apply Hloop.
Qed.

Lemma run_rows (op : Op) : preserves (rows_in Qr Qj) (run env fuel op).
Proof.
  pose proof (preserves_stops (rows_in Qr Qj) _ _
                (removeDeadJobs_stops env fuel)) as Hjobs.
  pose proof (preserves_stops (rows_in Qr Qj) _ _
                (stealWorkFromTheDead_stops env)) as Hsteal.
  pose proof (preserves_stops (rows_in Qr Qj) _ _
                executePendingDeletions_stops) as Hdel.
  pose proof (preserves_stops (rows_in Qr Qj) _ _
                (tryToFreeUpSpace_stops env fuel)) as Htry.
  pose proof freeUpSpace_rows as Hfree.
  destruct op; cbn [run]; unfold forget.
  - rows_auto.
  - unfold cachingIsFree, js_readFile. rows_auto.
  - assumption.
  - rows_auto.
  - unfold _executePendingUploads. rows_auto.
  - assumption.
  - assumption.
  - assumption.
  - unfold _allocateSpaceForJob.
    fold (own_job_row env newJobReqs). rows_auto.
  - unfold open, _allocateSpaceForJob.
    fold (own_job_row env jobDisk). rows_auto.
  - unfold writeGlobalFile. rows_auto.
  - unfold readGlobalFile, js_readFile. rows_auto.
  - unfold deleteLocalFile, deleteLocalFile_references. rows_auto.
  - unfold deleteGlobalFile, deleteLocalFile, deleteLocalFile_references.
    rows_auto.
  - unfold commitCurrentJob, _executePendingUploads. rows_auto.
  - unfold shutdown. rows_auto.
Qed.

End WrittenRows.

(** X18: whatever operation runs and however it ends, a reference row it
    leaves is either a row it found, up to its state (same path, same file,
    same job), or a row that carries [jobGraph.jobStoreID]; a job row it
    leaves is either a row it found, unchanged, or the row of the current
    job, [(jobID, tempDir, disk, self)].  No operation writes a row in the
    name of another job or moves a row to another job. *)
Theorem written_rows_carry_own_ids
    (env : Env) (fuel : nat) (op : Op) (s : State) :
  let s' := snd (run env fuel op s) in
  (forall r', In r' (refs (db s')) ->
     (exists r, In r (refs (db s)) /\ same_reference r r') \/
     r_job_id r' = jobStoreID env) /\
  (forall j', In j' (jobs (db s')) ->
     In j' (jobs (db s)) \/ exists n, j' = own_job_row env n).
Proof.
  cbv zeta.
  apply (run_rows env fuel
           (fun r' => (exists r, In r (refs (db s)) /\ same_reference r r') \/
                      r_job_id r' = jobStoreID env)
           (fun j' => In j' (jobs (db s)) \/ exists n, j' = own_job_row env n)).
  - intros r st [(r0 & Hin & Hsame) | Hown]; [left | right; exact Hown].
    exists r0. split; [exact Hin | exact Hsame].
  - intros r Hown. now right.
  - intros n. right. now exists n.
  - split.
    + intros r Hr. left. exists r. split; [exact Hr |]. now repeat split.
    + intros j Hj. now left.
Qed.
